(** * YT-DJ-Playlist: [src/step1_get_youtube.py]

    A shallow embedding of the URL handling and of the download
    orchestration of [step1_get_youtube.py], with the properties of its
    specification.

    Python values are modelled as follows.
    - [str] is [string]; [a in b], [str.split] and f-string concatenation
      are the functions [contains], [split] and [++] below.
    - [int] is [Z]; [len] is [Z.of_nat (length _)].
    - a [list] of strings is [list string]; a slice [l[:k]] is [slice_to].
    - an exception is a value of [exn]; code that can raise returns [exc].
    - the extraction and download engine ([yt_dlp]), the clock and the
      file system are an abstract world threaded through the calls. *)

From Stdlib Require Import String Ascii List ZArith Lia Bool Arith.
From Stdlib Require Import DecimalString.
Import ListNotations.

Open Scope list_scope.
Open Scope string_scope.

(** ** Exceptions *)

Inductive exn : Type :=
| IndexError
| TypeError
| EngineError (msg : string).

(** [str(e)] of the [except Exception as e] handlers. *)
Definition exn_str (e : exn) : string :=
  match e with
  | IndexError => "list index out of range"
  | TypeError => "argument of type 'NoneType' is not iterable"
  | EngineError msg => msg
  end.

Inductive exc (A : Type) : Type :=
| Ret (a : A)
| Raise (e : exn).

Arguments Ret {A} a.
Arguments Raise {A} e.

Definition bind {A B : Type} (m : exc A) (k : A -> exc B) : exc B :=
  match m with
  | Ret a => k a
  | Raise e => Raise e
  end.

Notation "x <- m ;; k" := (bind m (fun x => k))
  (at level 61, m at next level, right associativity).

(** ** Python string operations *)

Module PyStr.

(** [sub in s]. *)
Fixpoint contains (sub s : string) : bool :=
  prefix sub s ||
  match s with
  | EmptyString => false
  | String _ s' => contains sub s'
  end.

(** Drop the first [n] characters, [s[n:]]. *)
Fixpoint drop (n : nat) (s : string) : string :=
  match n, s with
  | O, _ => s
  | S _, EmptyString => EmptyString
  | S k, String _ s' => drop k s'
  end.

(** The scan of [s.split(sep)] for a non-empty [sep], left to right:
    [skip] counts the characters of a separator just matched that are
    still to be stepped over.  The result is the piece being read and the
    pieces after it. *)
Fixpoint split_go (sep : string) (skip : nat) (s : string)
  : string * list string :=
  match s with
  | EmptyString => (EmptyString, [])
  | String c s' =>
      match skip with
      | S k => split_go sep k s'
      | O =>
          if prefix sep s
          then let '(p, ps) := split_go sep (String.length sep - 1) s' in
               (EmptyString, p :: ps)
          else let '(p, ps) := split_go sep 0 s' in
               (String c p, ps)
      end
  end.

(** [s.split(sep)]. *)
Definition split (sep s : string) : list string :=
  let '(p, ps) := split_go sep 0 s in p :: ps.

(** [l[i]], which raises [IndexError] out of range. *)
Definition index {A : Type} (l : list A) (i : nat) : exc A :=
  match nth_error l i with
  | Some a => Ret a
  | None => Raise IndexError
  end.

(** The text of [s] before the first occurrence of [sep], all of [s] when
    there is none. *)
Fixpoint before (sep s : string) : string :=
  match s with
  | EmptyString => EmptyString
  | String c s' => if prefix sep s then EmptyString else String c (before sep s')
  end.

(** The text of [s] after the first occurrence of [sep]. *)
Fixpoint after (sep s : string) : option string :=
  match s with
  | EmptyString => None
  | String c s' => if prefix sep s then Some (drop (String.length sep) s) else after sep s'
  end.

(** [sep.join(l)]. *)
Fixpoint join (sep : string) (l : list string) : string :=
  match l with
  | [] => EmptyString
  | p :: ps =>
      match ps with
      | [] => p
      | _ :: _ => p ++ sep ++ join sep ps
      end
  end.

(** The character [c] occurs in [s]. *)
Fixpoint has_char (c : ascii) (s : string) : bool :=
  match s with
  | EmptyString => false
  | String d s' => Ascii.eqb c d || has_char c s'
  end.

End PyStr.

Import PyStr.

(** ** [get_video_url] (lines 91-104) *)

Definition watch_prefix : string := "https://www.youtube.com/watch?v=".

Definition get_video_url (url_with_playlist : string) : exc string :=
  if contains "&list=" url_with_playlist && contains "v=" url_with_playlist
  then
    a <- index (split "v=" url_with_playlist) 1 ;;
    video_id <- index (split "&" a) 0 ;;
    Ret (watch_prefix ++ video_id)
  else Ret url_with_playlist.

(** ** Playlist metadata returned by the extraction engine *)

(** A playlist entry is a dictionary, of which the code reads the key
    ['id'] only: the value is [entry.get('id')], [None] when the key is
    absent.  An empty dictionary, which is false as a condition, has no
    ['id'] and is skipped like a dictionary without that key. *)
Definition entry : Type := option string.

(** What [playlist_info['entries']] yields when iterated: the engine may
    report an entry of [None] (an unavailable video under
    ['ignoreerrors']), and a lazily produced sequence may fail part-way. *)
Inductive entries : Type :=
| Done
| Next (e : option entry) (rest : entries)
| Fails (e : exn).

(** The keys of an [info_dict] that the code reads. *)
Record info_dict : Type := {
  title : option string;
  playlist_entries : option entries
}.

(** Option dictionaries handed to [yt_dlp.YoutubeDL], in insertion order. *)
Inductive pyval : Type :=
| VStr (s : string)
| VBool (b : bool)
| VInt (z : Z)
| VDicts (l : list (list (string * string))).

Definition opts : Type := list (string * pyval).

(** ** Lists *)

(** [x in l] for a list of strings. *)
Definition mem (x : string) (l : list string) : bool :=
  existsb (String.eqb x) l.

(** [l[:k]]: a negative bound counts from the end. *)
Definition slice_to {A : Type} (l : list A) (k : Z) : list A :=
  if (0 <=? k)%Z then firstn (Z.to_nat k) l
  else firstn (length l - Z.to_nat (- k)) l.

(** [l.append(x)]. *)
Definition append {A : Type} (l : list A) (x : A) : list A := (l ++ [x])%list.

(** [not l]. *)
Definition is_empty {A : Type} (l : list A) : bool :=
  match l with
  | [] => true
  | _ :: _ => false
  end.

(** Truth value of a string: [if video_id:]. *)
Definition truthy (s : string) : bool :=
  match s with
  | EmptyString => false
  | String _ _ => true
  end.

(** [str(n)] for integers. *)
Definition str_of_nat (n : nat) : string := NilZero.string_of_uint (Nat.to_uint n).
Definition str_of_Z (z : Z) : string := NilZero.string_of_int (Z.to_int z).

Definition nl : string := String (ascii_of_nat 10) EmptyString.

(** [s * n]. *)
Fixpoint repeat_str (s : string) (n : nat) : string :=
  match n with
  | O => EmptyString
  | S k => s ++ repeat_str s k
  end.

(** [a / b] on paths, with [a] the text of a [Path] and [b] free of
    empty and ['.'] parts: an absolute [b] replaces [a], an empty [b]
    leaves [a], and the root takes no second separator. *)
Definition path_join (a b : string) : string :=
  if prefix "/" b then b
  else if b =? "" then a
  else if a =? "/" then a ++ b
  else a ++ "/" ++ b.

(** ** The world outside the script *)

(** Calls that a run leaves behind, oldest first. *)
Inductive event : Type :=
| ExtractPlaylist (playlist_url : string)
| DownloadVideo (video_url : string)
| WriteReport (report_path : string) (report_lines : list string).

(** The external collaborators: [extract_info], [download] and
    [prepare_filename] of a [YoutubeDL] object built from the given
    options, the directory listing [Path.glob], [Path.stem], the clock
    read through [datetime.now().strftime], the writing of a text file
    ([open(path, "w")] and [writelines]), and the formatting of the
    success rate ([:.1f] of a float).  Every call of the engine and every
    directory listing may raise and may change the world.  Logging and
    the creation of the output directory ([mkdir] with [exist_ok]) are
    left out: they are taken to succeed and no result of theirs is
    read. *)
Record Extern (World : Type) : Type := {
  extract_info : opts -> string -> World -> exc (option info_dict) * World;
  download : opts -> list string -> World -> exc unit * World;
  prepare_filename : opts -> info_dict -> World -> exc string * World;
  glob : string -> string -> World -> exc (list string) * World;
  stem : string -> string;
  now_strftime : string -> World -> string;
  writelines : string -> list string -> World -> World;
  format_rate : nat -> nat -> string
}.

Arguments extract_info {World} _ _ _ _.
Arguments download {World} _ _ _ _.
Arguments prepare_filename {World} _ _ _ _.
Arguments glob {World} _ _ _ _.
Arguments stem {World} _ _.
Arguments now_strftime {World} _ _ _.
Arguments writelines {World} _ _ _ _.
Arguments format_rate {World} _ _ _.

(** The result of [load_config()]: the keys of [config.yaml] that are read,
    each possibly absent, and the project root. *)
Record Config : Type := {
  YT_CHANNEL : option string;
  DOWNLOADS : option string;
  MAX_DOWNLOADS : option Z
}.

(** [config.get(key, default)]. *)
Definition get_or {A : Type} (value : option A) (default : A) : A :=
  match value with
  | Some a => a
  | None => default
  end.

Section Script.

Context {World : Type}.

Record state : Type := {
  world : World;
  trace : list event
}.

(** Computations that read and change the world and may raise. *)
Definition M (A : Type) : Type := state -> exc A * state.

Definition ret {A : Type} (a : A) : M A := fun st => (Ret a, st).

Definition raise {A : Type} (e : exn) : M A := fun st => (Raise e, st).

Definition mbind {A B : Type} (m : M A) (k : A -> M B) : M B :=
  fun st =>
    match m st with
    | (Ret a, st') => k a st'
    | (Raise e, st') => (Raise e, st')
    end.

Definition lift {A : Type} (m : exc A) : M A := fun st => (m, st).

(** A call into the world. *)
Definition call {A : Type} (f : World -> exc A * World) : M A :=
  fun st =>
    let '(r, w) := f (world st) in
    (r, {| world := w; trace := trace st |}).

Definition emit (ev : event) : M unit :=
  fun st => (Ret tt, {| world := world st; trace := (trace st ++ [ev])%list |}).

(** [try: m except Exception as e: h e]. *)
Definition try_except {A : Type} (m : M A) (h : exn -> M A) : M A :=
  fun st =>
    match m st with
    | (Ret a, st') => (Ret a, st')
    | (Raise e, st') => h e st'
    end.

(** Read the world without changing it. *)
Definition read {A : Type} (f : World -> A) : M A :=
  fun st => (Ret (f (world st)), st).

(** Change the world. *)
Definition update (f : World -> World) : M unit :=
  fun st => (Ret tt, {| world := f (world st); trace := trace st |}).

End Script.

Arguments state World : clear implicits.
Arguments M World A : clear implicits.

Notation "x <-- m ;; k" := (mbind m (fun x => k))
  (at level 61, m at next level, right associativity).
Notation "m ;;; k" := (mbind m (fun _ => k))
  (at level 61, right associativity).

(** ** [extract_urls_from_playlist] (lines 106-162) *)

(** The loop of lines 149-157 on the list [url_list], which it extends in
    place: the result is the outcome of the iteration and the list as the
    loop leaves it. *)
Fixpoint collect (max_downloads : Z) (es : entries) (url_list : list string)
  : exc unit * list string :=
  match es with
  | Done => (Ret tt, url_list)
  | Fails e => (Raise e, url_list)
  | Next e rest =>
      collect max_downloads rest
        match e with
        | Some d =>
            if (Z.of_nat (length url_list) <? max_downloads)%Z then
              match d with
              | Some video_id =>
                  if truthy video_id then
                    let video_url := watch_prefix ++ video_id in
                    if negb (mem video_url url_list)
                    then append url_list video_url
                    else url_list
                  else url_list
              | None => url_list
              end
            else url_list
        | None => url_list
        end
  end.

Section Extraction.

Context {World : Type} (X : Extern World).

(** Lines 137-159: the [try] block and its handler.  The handler only
    logs, so the value is [url_list] as the block leaves it: unchanged
    when the playlist id, the engine or the test for ['entries'] raises,
    and as extended so far when the iteration over the entries raises. *)
Definition extract_playlist (url : string) (max_downloads : Z)
    (ydl_opts : opts) (url_list : list string) : M World (list string) :=
  try_except
    (playlist_url <--
       lift (if contains "list=" url then
               a <- index (split "list=" url) 1 ;;
               playlist_id <- index (split "&" a) 0 ;;
               Ret ("https://www.youtube.com/playlist?list=" ++ playlist_id)
             else Ret url) ;;
     emit (ExtractPlaylist playlist_url) ;;;
     playlist_info <-- call (extract_info X ydl_opts playlist_url) ;;
     match playlist_info with
     | None => raise TypeError
     | Some info =>
         match playlist_entries info with
         | Some es => ret (snd (collect max_downloads es url_list))
         | None => ret url_list
         end
     end)
    (fun _ => ret url_list).

Definition extract_urls_from_playlist (url : string) (max_downloads : Z)
  : M World (list string) :=
  let ydl_opts :=
    [("extract_flat", VStr "in_playlist");
     ("quiet", VBool true);
     ("playlistend", VInt max_downloads);
     ("ignoreerrors", VBool true)] in
  if contains "watch?v=" url && contains "list=" url then
    a <-- lift (index (split "watch?v=" url) 1) ;;
    video_id <-- lift (index (split "&" a) 0) ;;
    let url_list := [watch_prefix ++ video_id] in
    if (max_downloads =? 1)%Z then ret url_list
    else
      url_list <-- extract_playlist url max_downloads ydl_opts url_list ;;
      ret (slice_to url_list max_downloads)
  else
    url_list <-- extract_playlist url max_downloads ydl_opts [] ;;
    ret (slice_to url_list max_downloads).

(** ** [is_playlist] (lines 164-174) *)

Definition is_playlist (url : string) : bool := contains "list=" url.

(** ** [download_video] (lines 176-277) *)

(** Lines 196-201. *)
Definition format_spec (type size video_format audio_format : string)
  : string :=
  if type =? "video" then
    "bestvideo[ext=" ++ video_format ++ "][height<=" ++ size
      ++ "]+bestaudio[ext=" ++ audio_format ++ "]/best[ext="
      ++ video_format ++ "]"
  else "bestaudio[ext=" ++ audio_format ++ "]".

(** Lines 204-227. *)
Definition download_opts
    (output_dir type size video_format audio_format log_level : string)
  : opts :=
  let download_opts :=
    [("format", VStr (format_spec type size video_format audio_format));
     ("outtmpl", VStr (path_join output_dir "%(title)s.%(ext)s"));
     ("quiet", VBool (log_level =? "NONE"));
     ("noplaylist", VBool true);
     ("merge_output_format",
       VStr (if type =? "video" then video_format else audio_format));
     ("ignoreerrors", VBool true);
     ("no_warnings", VBool false);
     ("verbose", VBool (log_level =? "DEBUG"))] in
  if type =? "audio" then
    append download_opts
      ("postprocessors",
        VDicts [[("key", "FFmpegExtractAudio");
                 ("preferredcodec", audio_format);
                 ("preferredquality", "192")]])
  else if type =? "video" then
    append download_opts
      ("postprocessors",
        VDicts [[("key", "FFmpegVideoConvertor");
                 ("preferedformat", video_format)]])
  else download_opts.

Definition download_video
    (video_url output_dir type size language video_format audio_format
       log_level : string) : M World (bool * string) :=
  let download_opts :=
    download_opts output_dir type size video_format audio_format log_level in
  emit (DownloadVideo video_url) ;;;
  try_except
    (info_dict <-- call (extract_info X download_opts video_url) ;;
     match info_dict with
     | None => ret (false, "Unknown (Info extraction failed)")
     | Some info_dict =>
         let title := get_or (title info_dict) "Unknown Title" in
         call (download X download_opts [video_url]) ;;;
         filename <-- call (prepare_filename X download_opts info_dict) ;;
         let base_filename := stem X filename in
         matching_files <-- call (glob X output_dir (base_filename ++ ".*")) ;;
         if negb (is_empty matching_files) then ret (true, title)
         else
           call (glob X output_dir "*") ;;;
           ret (false, title)
     end)
    (fun e => ret (false, "Unknown (Error: " ++ exn_str e ++ ")")).

(** ** [get_youtube] (lines 279-410) *)

(** Lines 327-352: the list of URLs to download. *)
Definition resolve_urls (url : string) (max_downloads : Z)
  : M World (list string) :=
  url_ls <--
    (if contains "list=" url then
       url_ls <-- extract_urls_from_playlist url max_downloads ;;
       if is_empty url_ls && contains "watch?v=" url then
         a <-- lift (index (split "watch?v=" url) 1) ;;
         video_id <-- lift (index (split "&" a) 0) ;;
         let clean_url := watch_prefix ++ video_id in
         ret (append url_ls clean_url)
       else ret url_ls
     else
       clean_url <-- lift (get_video_url url) ;;
       ret (append [] clean_url)) ;;
  if is_empty url_ls then ret (append url_ls url) else ret url_ls.

(** Lines 374-393: the loop over [url_ls], with the variables it updates. *)
Fixpoint download_loop
    (output_dir type size language video audio log_level : string)
    (url_ls : list string)
    (report_lines : list string) (success_count fail_count : nat)
  : M World (list string * nat * nat) :=
  match url_ls with
  | [] => ret (report_lines, success_count, fail_count)
  | video_url :: rest =>
      r <-- download_video video_url output_dir type size language video
              audio log_level ;;
      let '(success, title) := r in
      if success then
        download_loop output_dir type size language video audio log_level
          rest
          (append report_lines
             ("SUCCESS: " ++ title ++ " - " ++ video_url ++ nl))
          (S success_count) fail_count
      else
        download_loop output_dir type size language video audio log_level
          rest
          (append report_lines
             ("FAILED: " ++ video_url ++ " - Unable to download" ++ nl))
          success_count (S fail_count)
  end.

(** [config] and [root_dir] are the result of [load_config()]; [url] is
    [None] when the caller gives none. *)
Definition get_youtube (config : Config) (root_dir : string)
    (url : option string)
    (type size language video audio log_level : string)
  : M World (nat * nat * option string) :=
  let url :=
    match url with
    | None => YT_CHANNEL config
    | Some u => Some u
    end in
  let downloads_dir := get_or (DOWNLOADS config) "downloads" in
  let output_dir := path_join root_dir downloads_dir in
  if negb (mem type ["video"; "audio"]) then ret (0, 0, None)
  else
    let max_downloads := get_or (MAX_DOWNLOADS config) 5%Z in
    url <-- match url with
            | Some u => ret u
            | None => raise TypeError
            end ;;
    url_ls <-- resolve_urls url max_downloads ;;
    if is_empty url_ls then ret (0, 0, None)
    else
      timestamp <-- read (now_strftime X "%Y%m%d_%H%M%S") ;;
      let report_filename := "report_" ++ timestamp ++ ".txt" in
      let report_path := path_join output_dir report_filename in
      generated <-- read (now_strftime X "%Y-%m-%d %H:%M:%S") ;;
      let report_lines :=
        ["YouTube Download Report" ++ nl;
         "Generated: " ++ generated ++ nl;
         "Download Type: " ++ type ++ nl;
         "Max Downloads: " ++ str_of_Z max_downloads ++ nl;
         repeat_str "=" 50 ++ nl ++ nl] in
      r <-- download_loop output_dir type size language video audio
              log_level url_ls report_lines 0 0 ;;
      let '(report_lines, success_count, fail_count) := r in
      let report_lines :=
        append report_lines (nl ++ repeat_str "=" 50 ++ nl) in
      let report_lines := append report_lines ("Download Summary:" ++ nl) in
      let report_lines :=
        append report_lines
          ("Total Processed: " ++ str_of_nat (length url_ls) ++ nl) in
      let report_lines :=
        append report_lines
          ("Total Success: " ++ str_of_nat success_count ++ nl) in
      let report_lines :=
        append report_lines
          ("Total Failures: " ++ str_of_nat fail_count ++ nl) in
      let report_lines :=
        if (0 <? length url_ls)%nat then
          append report_lines
            ("Success Rate: "
               ++ format_rate X success_count (length url_ls) ++ "%" ++ nl)
        else report_lines in
      update (writelines X report_path report_lines) ;;;
      emit (WriteReport report_path report_lines) ;;;
      ret (success_count, fail_count, Some report_path).

End Extraction.

Arguments extract_urls_from_playlist {World} X url max_downloads _.
Arguments download_video {World} X video_url output_dir type size language
  video_format audio_format log_level _.
Arguments get_youtube {World} X config root_dir url type size language video
  audio log_level _.
Arguments resolve_urls {World} X url max_downloads _.
Arguments download_loop {World} X output_dir type size language video audio
  log_level url_ls report_lines success_count fail_count _.

(** ** Reading a report and a trace *)

(** The line that the loop adds for one URL, given what [download_video]
    returned for it. *)
Definition result_line (video_url : string) (r : bool * string) : string :=
  if fst r then "SUCCESS: " ++ snd r ++ " - " ++ video_url ++ nl
  else "FAILED: " ++ video_url ++ " - Unable to download" ++ nl.

Definition is_result_line (line : string) : bool :=
  prefix "SUCCESS:" line || prefix "FAILED:" line.

(** The result lines of a run, in the order of the URLs. *)
Definition result_lines (url_ls : list string)
    (outcomes : list (bool * string)) : list string :=
  map (fun p => result_line (fst p) (snd p)) (combine url_ls outcomes).

Definition successes (outcomes : list (bool * string)) : nat :=
  length (filter (fun r => fst r) outcomes).

Definition failures (outcomes : list (bool * string)) : nat :=
  length (filter (fun r => negb (fst r)) outcomes).

(** The lines before and after the result lines (lines 365-371 and
    396-403). *)
Definition report_header (generated type : string) (max_downloads : Z)
  : list string :=
  ["YouTube Download Report" ++ nl;
   "Generated: " ++ generated ++ nl;
   "Download Type: " ++ type ++ nl;
   "Max Downloads: " ++ str_of_Z max_downloads ++ nl;
   repeat_str "=" 50 ++ nl ++ nl].

Definition report_summary (processed success_count fail_count : nat)
    (rate : string) : list string :=
  [nl ++ repeat_str "=" 50 ++ nl;
   "Download Summary:" ++ nl;
   "Total Processed: " ++ str_of_nat processed ++ nl;
   "Total Success: " ++ str_of_nat success_count ++ nl;
   "Total Failures: " ++ str_of_nat fail_count ++ nl;
   "Success Rate: " ++ rate ++ "%" ++ nl].

(** The URLs on which [download_video] was called, oldest first. *)
Fixpoint download_calls (t : list event) : list string :=
  match t with
  | [] => []
  | DownloadVideo video_url :: t' => video_url :: download_calls t'
  | _ :: t' => download_calls t'
  end.

(** The trace [t'] is [t], possibly followed by one playlist extraction. *)
Definition extraction_only (t t' : list event) : Prop :=
  t' = t \/ exists playlist_url, t' = (t ++ [ExtractPlaylist playlist_url])%list.

Section Downloads.

Context {World : Type} (X : Extern World).
Variables output_dir type size language video audio log_level : string.

(** [downloads st url_ls outcomes st']: calling [download_video] on the
    URLs of [url_ls] one after the other, each in the state that the call
    before it left, returns [outcomes] and leads from [st] to [st']. *)
Inductive downloads
  : state World -> list string -> list (bool * string) -> state World -> Prop :=
| downloads_nil (st : state World) : downloads st [] [] st
| downloads_cons (st st1 st2 : state World) (video_url : string)
    (r : bool * string) (rest : list string) (rs : list (bool * string)) :
    download_video X video_url output_dir type size language video audio
      log_level st = (Ret r, st1) ->
    downloads st1 rest rs st2 ->
    downloads st (video_url :: rest) (r :: rs) st2.

End Downloads.

(** [run_of_calls X .. st1 url_ls r st']: the result [r] and the final
    state [st'] of a run are those of calling [download_video] on the URLs
    of [url_ls] one after the other from the state [st1]: the counts are
    those of the outcomes of the calls, the report is written to the world
    that the last call left, and the trace is that of [st1], of the calls
    and of the writing. *)
Definition run_of_calls {World : Type} (X : Extern World)
    (output_dir type size language video audio log_level : string)
    (st1 : state World) (url_ls : list string)
    (r : nat * nat * option string) (st' : state World) : Prop :=
  exists outcomes st2 report_path report_lines,
    downloads X output_dir type size language video audio log_level
      st1 url_ls outcomes st2 /\
    r = (successes outcomes, failures outcomes, Some report_path) /\
    world st' = writelines X report_path report_lines (world st2) /\
    trace st'
    = (trace st1 ++ map DownloadVideo url_ls
       ++ [WriteReport report_path report_lines])%list.

(** ** A sample world *)

Module Sample.

(** Six entries for three distinct videos, with an unavailable entry and an
    entry without id. *)
Definition sample_entries : entries :=
  Next (Some (Some "aaa"))
    (Next None
       (Next (Some (Some "bbb"))
          (Next (Some (Some "aaa"))
             (Next (Some None)
                (Next (Some (Some "ccc")) Done))))).

(** The world counts the calls made into it.  Playlists list
    [sample_entries]; the video [bbb] makes the engine raise, the video
    [ccc] has no metadata, every other video downloads to a file. *)
Definition extern : Extern nat := {|
  extract_info := fun _ url w =>
    if contains "playlist?list=" url then
      (Ret (Some {| title := None; playlist_entries := Some sample_entries |}),
       S w)
    else if url =? "https://www.youtube.com/watch?v=bbb" then
      (Raise (EngineError "Video unavailable"), S w)
    else if url =? "https://www.youtube.com/watch?v=ccc" then
      (Ret None, S w)
    else
      (Ret (Some {| title := Some "A title"; playlist_entries := None |}),
       S w);
  download := fun _ _ w => (Ret tt, S w);
  prepare_filename := fun _ _ w => (Ret "downloads/A title.mp4", S w);
  glob := fun _ _ w => (Ret ["downloads/A title.mp4"], S w);
  stem := fun _ => "A title";
  now_strftime := fun _ _ => "20250101_000000";
  writelines := fun _ _ w => S w;
  format_rate := fun _ _ => "33.3"
|}.

Definition st0 : state nat := {| world := 0; trace := [] |}.

Definition config : Config :=
  {| YT_CHANNEL :=
       Some "https://www.youtube.com/watch?v=bbb&list=PL1&index=50";
     DOWNLOADS := Some "downloads";
     MAX_DOWNLOADS := Some 5%Z |}.

End Sample.

(** ** Reading the result of [extract_urls_from_playlist] *)

(** [url.split(key)[1].split('&')[0]], the text cut out after [key]. *)
Definition text_after (key url : string) : exc string :=
  a <- index (split key url) 1 ;;
  index (split "&" a) 0.

(** The list that lines 125-134 start from: the video of a [watch?v=] URL
    with a playlist, or nothing. *)
Definition seed_of (url : string) : list string :=
  if contains "watch?v=" url && contains "list=" url then
    match text_after "watch?v=" url with
    | Ret video_id => [watch_prefix ++ video_id]
    | Raise _ => []
    end
  else [].

(** The URL that lines 140-145 hand to the engine. *)
Definition playlist_url_of (url : string) : string :=
  if contains "list=" url then
    match text_after "list=" url with
    | Ret playlist_id => "https://www.youtube.com/playlist?list=" ++ playlist_id
    | Raise _ => url
    end
  else url.

(** The options of lines 117-122. *)
Definition flat_opts (max_downloads : Z) : opts :=
  [("extract_flat", VStr "in_playlist");
   ("quiet", VBool true);
   ("playlistend", VInt max_downloads);
   ("ignoreerrors", VBool true)].

(** The answer of the engine, read as the list that the [try] block
    leaves. *)
Definition after_extraction (max_downloads : Z)
    (r : exc (option info_dict)) (url_list : list string) : list string :=
  match r with
  | Ret (Some info) =>
      match playlist_entries info with
      | Some es => snd (collect max_downloads es url_list)
      | None => url_list
      end
  | _ => url_list
  end.

(** The video URLs of the entries that have an id, in the order in which
    the engine yields them, up to the end or to the failure of the
    iteration. *)
Fixpoint entry_urls (es : entries) : list string :=
  match es with
  | Done => []
  | Fails _ => []
  | Next (Some (Some video_id)) rest =>
      if truthy video_id then (watch_prefix ++ video_id) :: entry_urls rest
      else entry_urls rest
  | Next _ rest => entry_urls rest
  end.

(** [distinct_from acc l]: [acc] followed by the elements of [l] that are
    new, each at its first occurrence. *)
Definition add_new (acc : list string) (x : string) : list string :=
  if mem x acc then acc else append acc x.

Definition distinct_from (acc l : list string) : list string :=
  fold_left add_new l acc.

(** ** [setup_logging] (lines 43-89) *)

Module Logging.

(** The numeric levels of the [logging] module. *)
Definition DEBUG : nat := 10.
Definition INFO : nat := 20.
Definition WARNING : nat := 30.
Definition ERROR : nat := 40.
Definition CRITICAL : nat := 50.

Inductive handler : Type :=
| StreamHandler (fmt : string)
| FileHandler (filename fmt : string).

Definition handler_eqb (h1 h2 : handler) : bool :=
  match h1, h2 with
  | StreamHandler f1, StreamHandler f2 => f1 =? f2
  | FileHandler n1 f1, FileHandler n2 f2 => (n1 =? n2) && (f1 =? f2)
  | _, _ => false
  end.

(** The state of the [logging] module that the script touches: the
    handlers and the level of the root logger, and the level set by
    [logging.disable]. *)
Record logging : Type := {
  handlers : list handler;
  level : nat;
  disabled : nat
}.

(** [root_logger.removeHandler(h)].  Python removes the one handler object
    [h]; here handlers are values, and every handler equal to [h] goes. *)
Definition removeHandler (h : handler) (L : logging) : logging :=
  {| handlers := filter (fun h' => negb (handler_eqb h h')) (handlers L);
     level := level L;
     disabled := disabled L |}.

(** [logging.getLogger().addHandler(h)]. *)
Definition addHandler (h : handler) (L : logging) : logging :=
  {| handlers := append (handlers L) h;
     level := level L;
     disabled := disabled L |}.

(** [logging.basicConfig(level=lvl, format=fmt)], which does nothing when
    the root logger has handlers. *)
Definition basicConfig (lvl : nat) (fmt : string) (L : logging) : logging :=
  match handlers L with
  | [] => {| handlers := [StreamHandler fmt];
             level := lvl;
             disabled := disabled L |}
  | _ :: _ => L
  end.

(** [logging.disable(lvl)]. *)
Definition disable (lvl : nat) (L : logging) : logging :=
  {| handlers := handlers L; level := level L; disabled := lvl |}.

(** Whether the root logger lets a record of level [lvl] through. *)
Definition isEnabledFor (lvl : nat) (L : logging) : bool :=
  (disabled L <? lvl)%nat && (level L <=? lvl)%nat.

(** [d.get(key, default)] on a dictionary given by its items. *)
Fixpoint dict_get {A : Type} (d : list (string * A)) (key : string)
    (default : A) : A :=
  match d with
  | [] => default
  | (k, v) :: d' => if k =? key then v else dict_get d' key default
  end.

Definition log_format : string :=
  "%(asctime)s - %(levelname)s - %(message)s".

Definition log_levels : list (string * nat) :=
  [("DEBUG", DEBUG);
   ("INFO", INFO);
   ("WARNING", WARNING);
   ("ERROR", ERROR);
   ("CRITICAL", CRITICAL);
   ("NONE", CRITICAL + 1)].

(** [now] is [datetime.now().strftime('%Y%m%d_%H%M%S')]; [output_dir] is
    [None] when the caller gives none.  The creation of the directory and
    of the log file are taken to succeed, and the messages printed and
    logged on the way are left out. *)
Definition setup_logging (log_level : string) (output_dir : option string)
    (now : string) (L : logging) : logging :=
  let L := fold_left (fun L h => removeHandler h L) (handlers L) L in
  let L := basicConfig (dict_get log_levels log_level INFO) log_format L in
  let L :=
    match output_dir with
    | Some output_dir =>
        let log_file :=
          path_join output_dir ("download_log_" ++ now ++ ".log") in
        addHandler (FileHandler log_file log_format) L
    | None => L
    end in
  if log_level =? "NONE" then disable CRITICAL L else L.

End Logging.

(** ** [load_config] (lines 9-41) *)

Module Paths.

(** An absolute path, by its components. *)
Definition path : Type := list string.

(** [p.parent]: the parent of the root is the root. *)
Definition parent (p : path) : path := removelast p.

(** [p / name]. *)
Definition child (p : path) (name : string) : path := (p ++ [name])%list.

End Paths.

(** What [yaml.safe_load] returns: a mapping, read through the keys that
    the script uses, or something else (nothing for an empty file, a list,
    a scalar). *)
Inductive yaml : Type :=
| YMapping (c : Config)
| YOther.

(** The script's own location, [Path(__file__).resolve()], and the reading
    and parsing of a file, [open] followed by [yaml.safe_load]. *)
Record Files (World : Type) : Type := {
  script_file : Paths.path;
  safe_load_file : Paths.path -> World -> exc yaml * World
}.

Arguments script_file {World} _.
Arguments safe_load_file {World} _ _ _.

Definition default_config : Config :=
  {| YT_CHANNEL :=
       Some "https://www.youtube.com/watch?v=EptPiz-ZYvM&list=PLJZH8sevmMq6Ao3BUvP3FDOq1CrUxP9-r&index=50";
     DOWNLOADS := Some "downloads";
     MAX_DOWNLOADS := Some 5%Z |}.

(** The printed lines are left out. *)
Definition load_config {World : Type} (F : Files World) (w : World)
  : (yaml * Paths.path) * World :=
  let current_path := script_file F in
  let script_dir := Paths.parent current_path in
  let root_dir := Paths.parent script_dir in
  let config_path := Paths.child root_dir "config.yaml" in
  match safe_load_file F config_path w with
  | (Ret config, w') => ((config, root_dir), w')
  | (Raise _, w') => ((YMapping default_config, root_dir), w')
  end.

(** ** [main] (lines 412-426) *)

Section Main.

Context {World : Type} (X : Extern World).

(** [config] and [root_dir] are what [load_config()] returns inside
    [get_youtube]; the call of [load_config()] in [main] itself serves two
    printed lines only and is left out. *)
Variables (config : Config) (root_dir : string).

(** [get_youtube] called on an unpacked argument list: the arguments
    fill the parameters in order, the others keep their defaults, and more
    arguments than parameters is a [TypeError]. *)
Definition get_youtube_args (args : list string)
  : M World (nat * nat * option string) :=
  if (7 <? length args)%nat then raise TypeError
  else
    get_youtube X config root_dir (nth_error args 0)
      (nth 1 args "video") (nth 2 args "760") (nth 3 args "en")
      (nth 4 args "mp4") (nth 5 args "mp3") (nth 6 args "INFO").

Definition main (argv : list string) : M World unit :=
  (if (length argv <? 2)%nat then get_youtube_args []
   else get_youtube_args (skipn 1 argv)) ;;;
  ret tt.

End Main.

Arguments get_youtube_args {World} X config root_dir args _.
Arguments main {World} X config root_dir argv _.

(** ** More sample worlds *)

Module SampleMore.

(** An engine that cannot reach the network: every call raises. *)
Definition offline : Extern nat := {|
  extract_info := fun _ _ w => (Raise (EngineError "offline"), S w);
  download := fun _ _ w => (Raise (EngineError "offline"), S w);
  prepare_filename := fun _ _ w => (Raise (EngineError "offline"), S w);
  glob := fun _ _ w => (Ret [], S w);
  stem := fun s => s;
  now_strftime := fun _ _ => "20250101_000000";
  writelines := fun _ _ w => S w;
  format_rate := fun _ _ => "0.0"
|}.

Definition config_zero : Config :=
  {| YT_CHANNEL := None; DOWNLOADS := None; MAX_DOWNLOADS := Some 0%Z |}.

Definition config_empty : Config :=
  {| YT_CHANNEL := None; DOWNLOADS := None; MAX_DOWNLOADS := None |}.

(** A project at [/home/dj/project] whose [config.yaml] cannot be read. *)
Definition files : Files nat := {|
  script_file := ["home"; "dj"; "project"; "src"; "step1_get_youtube.py"];
  safe_load_file := fun _ w => (Raise (EngineError "No such file"), S w)
|}.

(** A root logger that two earlier runs configured. *)
Definition used_logging : Logging.logging :=
  {| Logging.handlers :=
       [Logging.StreamHandler Logging.log_format;
        Logging.FileHandler "downloads/download_log_1.log" Logging.log_format;
        Logging.FileHandler "downloads/download_log_2.log" Logging.log_format];
     Logging.level := Logging.INFO;
     Logging.disabled := 0 |}.

End SampleMore.

(** * Properties *)

(** ** Strings *)

Module PyStrFacts.

Lemma prefix_nil (s : string) : prefix "" s = true.
Proof. destruct s; reflexivity. Qed.

Lemma prefix_split (p s : string) :
  prefix p s = true -> s = p ++ drop (String.length p) s.
Proof.
  revert s; induction p as [|a p IH]; intros s H.
  - reflexivity.
  - destruct s as [|b s]; simpl in H; [discriminate|].
    destruct (ascii_dec a b) as [->|]; [|discriminate].
    simpl. f_equal. now apply IH.
Qed.

Lemma prefix_app (p t : string) : prefix p (p ++ t) = true.
Proof.
  induction p as [|a p IH]; simpl.
  - apply prefix_nil.
  - destruct (ascii_dec a a); [exact IH|congruence].
Qed.

Lemma drop_app_length (p t : string) : drop (String.length p) (p ++ t) = t.
Proof. induction p; simpl; auto. Qed.

Lemma split_go_skip (sep : string) (k : nat) (s : string) :
  split_go sep k s = split_go sep 0 (drop k s).
Proof.
  revert k; induction s as [|c s IH]; intros [|k]; try reflexivity.
  simpl. apply IH.
Qed.

(** The first piece of a split is the text before the first separator. *)
Lemma split_go_before (sep s : string) :
  fst (split_go sep 0 s) = before sep s.
Proof.
  induction s as [|c s IH]; [reflexivity|].
  cbn [split_go before].
  destruct (prefix sep (String c s)).
  - now destruct (split_go sep (String.length sep - 1) s).
  - destruct (split_go sep 0 s); simpl in *. now f_equal.
Qed.

(** The second piece, when there is one, is the text between the first
    separator and the one after it. *)
Lemma split_go_after (sep s : string) :
  sep <> "" ->
  hd_error (snd (split_go sep 0 s)) = option_map (before sep) (after sep s).
Proof.
  intros Hsep. induction s as [|c s IH]; [reflexivity|].
  cbn [split_go after].
  destruct (prefix sep (String c s)).
  - destruct sep as [|a sep]; [congruence|].
    replace (String.length (String a sep) - 1) with (String.length sep)
      by (simpl; lia).
    cbn [String.length drop option_map].
    rewrite split_go_skip, <- split_go_before.
    now destruct (split_go (String a sep) 0 (drop (String.length sep) s)).
  - destruct (split_go sep 0 s); exact IH.
Qed.

Lemma join_cons (sep : string) (c : ascii) (p : string) (ps : list string) :
  join sep (String c p :: ps) = String c (join sep (p :: ps)).
Proof. destruct ps; reflexivity. Qed.

(** Joining the pieces of a split with the separator gives the string
    back. *)
Lemma join_split (sep s : string) :
  sep <> "" -> join sep (split sep s) = s.
Proof.
  intros Hsep.
  assert (H : forall n s, String.length s <= n -> join sep (split sep s) = s);
    [|now apply (H (String.length s))].
  clear s. induction n as [|n IH]; intros [|c s] Hn; try reflexivity;
    [simpl in Hn; lia|].
  unfold split. cbn [split_go].
  destruct (prefix sep (String c s)) eqn:E.
  - rewrite split_go_skip.
    assert (Hd : join sep (split sep (drop (String.length sep - 1) s))
                 = drop (String.length sep - 1) s).
    { apply IH. simpl in Hn.
      assert (forall k t, String.length (drop k t) <= String.length t)
        as Hle by (induction k; intros [|? ?]; simpl; auto).
      specialize (Hle (String.length sep - 1) s). lia. }
    unfold split in Hd.
    destruct (split_go sep 0 (drop (String.length sep - 1) s)) as [p ps].
    change (join sep ("" :: p :: ps)) with (sep ++ join sep (p :: ps)).
    rewrite Hd. rewrite (prefix_split _ _ E) at 1.
    destruct sep as [|a sep]; [congruence|].
    replace (String.length (String a sep) - 1) with (String.length sep)
      by (simpl; lia).
    reflexivity.
  - assert (Hs : join sep (split sep s) = s) by (apply IH; simpl in Hn; lia).
    unfold split in Hs. destruct (split_go sep 0 s) as [p ps].
    rewrite join_cons. now f_equal.
Qed.

Lemma index_split_0 (sep s : string) :
  index (split sep s) 0 = Ret (before sep s).
Proof.
  unfold split. rewrite <- split_go_before.
  now destruct (split_go sep 0 s).
Qed.

Lemma index_split_1 (sep s : string) :
  sep <> "" ->
  index (split sep s) 1 =
  match after sep s with
  | Some r => Ret (before sep r)
  | None => Raise IndexError
  end.
Proof.
  intros Hsep. unfold split, index.
  pose proof (split_go_after sep s Hsep) as H.
  destruct (split_go sep 0 s) as [p ps]; simpl in *.
  destruct ps, (after sep s); simpl in *; congruence.
Qed.

(** [sep in s] exactly when there is a first occurrence to cut at. *)
Lemma contains_after (sep s : string) :
  sep <> "" ->
  contains sep s = true <-> exists r, after sep s = Some r.
Proof.
  intros Hsep. induction s as [|c s IH].
  - destruct sep; [congruence|]. simpl.
    split; [discriminate|intros [r H]; discriminate].
  - cbn [contains after].
    destruct (prefix sep (String c s)); cbn [orb].
    + split; eauto.
    + exact IH.
Qed.

(** [before] and [after] cut [s] at an occurrence of [sep] ... *)
Lemma before_after (sep s r : string) :
  after sep s = Some r -> s = before sep s ++ sep ++ r.
Proof.
  induction s as [|c s IH]; [discriminate|].
  cbn [before after].
  destruct (prefix sep (String c s)) eqn:E.
  - intros [= <-]. now apply prefix_split.
  - intros H. cbn [String.append]. f_equal. now apply IH.
Qed.

(** ... which is the first one: [sep] matches at no earlier position. *)
Lemma before_first (sep s : string) (n : nat) :
  n < String.length (before sep s) -> prefix sep (drop n s) = false.
Proof.
  revert n; induction s as [|c s IH]; intros n; [simpl; lia|].
  cbn [before].
  destruct (prefix sep (String c s)) eqn:E; cbn [String.length]; [lia|].
  destruct n as [|n]; [now rewrite <- E|].
  intros H. cbn [drop]. apply IH. lia.
Qed.

(** When nothing is cut, the separator occurs nowhere. *)
Lemma before_none (sep s : string) :
  after sep s = None -> before sep s = s.
Proof.
  induction s as [|c s IH]; [reflexivity|].
  cbn [before after].
  destruct (prefix sep (String c s)); [discriminate|].
  intros H. f_equal. now apply IH.
Qed.

Lemma has_char_app (c : ascii) (a b : string) :
  has_char c (a ++ b) = has_char c a || has_char c b.
Proof.
  induction a as [|d a IH]; simpl; [reflexivity|].
  now rewrite IH, orb_assoc.
Qed.

Lemma has_char_before (c : ascii) (s : string) :
  has_char c (before (String c "") s) = false.
Proof.
  induction s as [|d s IH]; [reflexivity|].
  cbn [before prefix].
  destruct (ascii_dec c d) as [->|Hne].
  - now rewrite prefix_nil.
  - simpl. rewrite IH, orb_false_r. now apply Ascii.eqb_neq.
Qed.

Lemma prefix_has_char (c : ascii) (t s : string) :
  prefix (String c t) s = true -> has_char c s = true.
Proof.
  destruct s as [|d s]; simpl; [discriminate|].
  destruct (ascii_dec c d) as [->|]; [|discriminate].
  now rewrite Ascii.eqb_refl.
Qed.

Lemma contains_has_char (c : ascii) (t s : string) :
  contains (String c t) s = true -> has_char c s = true.
Proof.
  induction s as [|d s IH]; intros H.
  - discriminate.
  - cbn [contains] in H. apply orb_true_iff in H as [H|H].
    + now apply prefix_has_char in H.
    + simpl. rewrite (IH H). apply orb_true_r.
Qed.

Lemma no_char_no_contains (c : ascii) (t s : string) :
  has_char c s = false -> contains (String c t) s = false.
Proof.
  intros H. destruct (contains (String c t) s) eqn:E; [|reflexivity].
  apply contains_has_char in E. congruence.
Qed.

Lemma append_nil_r (s : string) : s ++ "" = s.
Proof. induction s; simpl; congruence. Qed.

Lemma append_assoc (a b c : string) : (a ++ b) ++ c = a ++ b ++ c.
Proof. induction a; simpl; congruence. Qed.

(** What follows the text before a separator is nothing or starts with
    that separator. *)
Lemma before_tail (sep s : string) :
  exists tail,
    s = before sep s ++ tail /\ (tail = "" \/ prefix sep tail = true).
Proof.
  destruct (after sep s) as [r|] eqn:E.
  - exists (sep ++ r). split; [now apply before_after|].
    right. apply prefix_app.
  - exists "". rewrite (before_none _ _ E), append_nil_r. auto.
Qed.

Lemma prefix_mono (p a t : string) :
  prefix p a = true -> prefix p (a ++ t) = true.
Proof.
  revert a; induction p as [|c p IH]; intros a H.
  - apply prefix_nil.
  - destruct a as [|d a]; simpl in *; [discriminate|].
    destruct (ascii_dec c d); [now apply IH|discriminate].
Qed.

Lemma contains_mono (p a t : string) :
  contains p a = true -> contains p (a ++ t) = true.
Proof.
  induction a as [|d a IH]; intros H.
  - simpl in H. rewrite orb_false_r in H.
    destruct p; [|discriminate]. destruct t; reflexivity.
  - cbn [contains] in H. cbn [String.append contains].
    apply orb_true_iff in H as [H|H]; apply orb_true_iff.
    + left. now apply (prefix_mono p (String d a) t).
    + right. now apply IH.
Qed.

(** The separator does not occur in the text before its first
    occurrence. *)
Lemma contains_before (sep s : string) :
  sep <> "" -> contains sep (before sep s) = false.
Proof.
  intros Hsep. induction s as [|c s IH].
  - destruct sep; [congruence|reflexivity].
  - cbn [before]. destruct (prefix sep (String c s)) eqn:E.
    + destruct sep; [congruence|reflexivity].
    + cbn [contains]. rewrite IH, orb_false_r.
      destruct (prefix sep (String c (before sep s))) eqn:F; [|reflexivity].
      destruct (before_tail sep s) as (tail & Hs & _).
      apply (prefix_mono _ _ tail) in F.
      cbn [String.append] in F. rewrite <- Hs in F. congruence.
Qed.

Lemma prefix_contains (p s : string) :
  prefix p s = true -> contains p s = true.
Proof. intros H. destruct s; cbn [contains]; rewrite H; reflexivity. Qed.

(** [contains sub s] is the substring test. *)
Lemma contains_iff (sub s : string) :
  contains sub s = true <-> exists pre post, s = pre ++ sub ++ post.
Proof.
  split.
  - induction s as [|c s IH]; cbn [contains]; intros H;
      apply orb_true_iff in H as [H|H]; try discriminate.
    + exists "", (drop (String.length sub) ""). now apply prefix_split.
    + exists "", (drop (String.length sub) (String c s)).
      now apply prefix_split.
    + destruct (IH H) as (pre & post & ->). now exists (String c pre), post.
  - intros (pre & post & ->). induction pre as [|c pre IH].
    + apply prefix_contains. exact (prefix_app sub post).
    + change (String c pre ++ sub ++ post)
        with (String c (pre ++ sub ++ post)).
      cbn [contains]. rewrite IH. apply orb_true_r.
Qed.

(** A string that contains [c] followed by [t] contains [t]. *)
Lemma contains_tail (c : ascii) (t s : string) :
  contains (String c t) s = true -> contains t s = true.
Proof.
  induction s as [|d s IH]; [discriminate|].
  intros H. cbn [contains] in H. apply orb_true_iff in H as [H|H].
  - cbn [prefix] in H. destruct (ascii_dec c d); [|discriminate].
    cbn [contains]. rewrite (prefix_contains _ _ H). apply orb_true_r.
  - cbn [contains]. rewrite (IH H). apply orb_true_r.
Qed.

End PyStrFacts.

Import PyStrFacts.

(** ** [get_video_url] *)

Lemma get_video_url_cut (u rest : string) :
  contains "&list=" u = true ->
  after "v=" u = Some rest ->
  get_video_url u = Ret (watch_prefix ++ before "&" (before "v=" rest)).
Proof.
  intros Hl Hv. unfold get_video_url.
  assert (contains "v=" u = true) as ->
    by (apply contains_after; [discriminate|eauto]).
  rewrite Hl. cbn [andb].
  rewrite index_split_1 by discriminate. rewrite Hv. cbn [bind].
  now rewrite index_split_0.
Qed.

Lemma get_video_url_unchanged (u : string) :
  contains "&list=" u && contains "v=" u = false ->
  get_video_url u = Ret u.
Proof. intros H. unfold get_video_url. now rewrite H. Qed.

Lemma watch_prefix_no_amp (video_id : string) :
  has_char "&" video_id = false ->
  has_char "&" (watch_prefix ++ video_id) = false.
Proof. intros H. rewrite has_char_app, H. reflexivity. Qed.

Lemma get_video_url_total (u : string) :
  exists r, get_video_url u = Ret r.
Proof.
  destruct (contains "&list=" u && contains "v=" u) eqn:E.
  - apply andb_true_iff in E as [Hl Hv].
    apply contains_after in Hv as [rest Hv]; [|discriminate].
    eexists. now apply get_video_url_cut with (rest := rest).
  - eexists. now apply get_video_url_unchanged.
Qed.

(** C3: the code breaks the property at two URLs that contain ['list=']
    and ['v='].  The guard looks for ['&list='], so a URL whose playlist
    parameter comes first is returned unchanged, playlist parameter
    included, where the docstring promises a URL without playlist
    parameters and the other tests of the file look for ['list='].  And
    the id is the second piece of [split('v=')], so it ends at a second
    ['v='] before the next ['&'], where the text between the first ['v=']
    and the next ['&'] is longer. *)
Lemma get_video_url_counterexample :
  (contains "list=" "https://www.youtube.com/watch?list=PL1&v=abc" = true /\
   contains "v=" "https://www.youtube.com/watch?list=PL1&v=abc" = true /\
   get_video_url "https://www.youtube.com/watch?list=PL1&v=abc"
     = Ret "https://www.youtube.com/watch?list=PL1&v=abc" /\
   get_video_url "https://www.youtube.com/watch?list=PL1&v=abc"
     <> Ret "https://www.youtube.com/watch?v=abc") /\
  (contains "list=" "https://www.youtube.com/watch?v=dev=ops&list=PL1" = true /\
   contains "v=" "https://www.youtube.com/watch?v=dev=ops&list=PL1" = true /\
   after "v=" "https://www.youtube.com/watch?v=dev=ops&list=PL1"
     = Some "dev=ops&list=PL1" /\
   before "&" "dev=ops&list=PL1" = "dev=ops" /\
   get_video_url "https://www.youtube.com/watch?v=dev=ops&list=PL1"
     = Ret "https://www.youtube.com/watch?v=de").
Proof.
  repeat split; try reflexivity. discriminate.
Qed.

(** What [get_video_url] does as it is written, cases that break its
    docstring included: with ['&list='] and ['v='] in the URL the id runs
    from the first ['v='] to the next ['&'], the next ['v='] or the end;
    any other URL comes back unchanged. *)
Theorem get_video_url_spec (u : string) :
  (contains "&list=" u = true -> contains "v=" u = true ->
   exists pre video_id tail,
     u = pre ++ "v=" ++ video_id ++ tail /\
     (forall n, n < String.length pre -> prefix "v=" (drop n u) = false) /\
     has_char "&" video_id = false /\
     contains "v=" video_id = false /\
     (tail = "" \/ prefix "&" tail = true \/ prefix "v=" tail = true) /\
     get_video_url u = Ret (watch_prefix ++ video_id) /\
     has_char "&" (watch_prefix ++ video_id) = false /\
     contains "&list=" (watch_prefix ++ video_id) = false) /\
  (contains "&list=" u = false \/ contains "v=" u = false ->
   get_video_url u = Ret u) /\
  (contains "list=" u = false -> get_video_url u = Ret u).
Proof.
  split; [|split].
  - intros Hl Hv.
    apply contains_after in Hv as [rest Hv]; [|discriminate].
    destruct (before_tail "v=" rest) as (t1 & Hrest & Ht1).
    destruct (before_tail "&" (before "v=" rest)) as (t2 & Hb & Ht2).
    exists (before "v=" u), (before "&" (before "v=" rest)), (t2 ++ t1).
    assert (Hamp : has_char "&" (before "&" (before "v=" rest)) = false)
      by apply has_char_before.
    repeat split.
    + assert (rest = before "&" (before "v=" rest) ++ t2 ++ t1) as <-
        by (rewrite <- append_assoc, <- Hb; exact Hrest).
      now apply before_after.
    + intros n Hn. now apply before_first.
    + exact Hamp.
    + destruct (contains "v=" (before "&" (before "v=" rest))) eqn:E;
        [|reflexivity].
      apply (contains_mono _ _ t2) in E. rewrite <- Hb in E.
      rewrite contains_before in E; [discriminate|discriminate].
    + destruct Ht2 as [->|Ht2].
      * destruct Ht1 as [->|Ht1]; auto.
      * right; left. now apply prefix_mono.
    + now apply get_video_url_cut.
    + now apply watch_prefix_no_amp.
    + apply no_char_no_contains. now apply watch_prefix_no_amp.
  - intros H. apply get_video_url_unchanged.
    destruct H as [-> | ->]; [reflexivity|apply andb_false_r].
  - intros H. apply get_video_url_unchanged.
    destruct (contains "&list=" u) eqn:E; [|reflexivity].
    apply contains_tail in E. congruence.
Qed.

Lemma get_video_url_spec_witness :
  (exists pre video_id tail,
     "https://www.youtube.com/watch?v=EptPiz-ZYvM&list=PLJZH8&index=50"
       = pre ++ "v=" ++ video_id ++ tail /\
     get_video_url
       "https://www.youtube.com/watch?v=EptPiz-ZYvM&list=PLJZH8&index=50"
       = Ret (watch_prefix ++ video_id)) /\
  get_video_url "https://www.youtube.com/watch?v=EptPiz-ZYvM"
    = Ret "https://www.youtube.com/watch?v=EptPiz-ZYvM" /\
  get_video_url "https://youtu.be/EptPiz-ZYvM"
    = Ret "https://youtu.be/EptPiz-ZYvM".
Proof.
  split; [|split].
  - destruct (proj1 (get_video_url_spec
      "https://www.youtube.com/watch?v=EptPiz-ZYvM&list=PLJZH8&index=50")
      eq_refl eq_refl)
      as (pre & video_id & tail & H1 & _ & _ & _ & _ & H2 & _).
    exists pre, video_id, tail. split; assumption.
  - apply (proj1 (proj2 (get_video_url_spec
      "https://www.youtube.com/watch?v=EptPiz-ZYvM"))).
    left; reflexivity.
  - apply (proj2 (proj2 (get_video_url_spec "https://youtu.be/EptPiz-ZYvM"))).
    reflexivity.
Defined.

(** C8: [get_video_url] is idempotent: it returns on every string, and
    applied to its own result it returns that result. *)
Theorem get_video_url_idempotent (u : string) :
  exists r,
    get_video_url u = Ret r /\
    (x <- get_video_url u ;; get_video_url x) = Ret r.
Proof.
  destruct (contains "&list=" u && contains "v=" u) eqn:E.
  - apply andb_true_iff in E as [Hl Hv].
    apply contains_after in Hv as [rest Hv]; [|discriminate].
    pose proof (get_video_url_cut u rest Hl Hv) as Hr.
    eexists. split; [exact Hr|]. rewrite Hr. cbn [bind].
    apply get_video_url_unchanged.
    rewrite no_char_no_contains; [reflexivity|].
    apply watch_prefix_no_amp, has_char_before.
  - exists u. rewrite (get_video_url_unchanged u E). cbn [bind].
    split; [reflexivity|]. now apply get_video_url_unchanged.
Qed.

(** ** Lists *)

Lemma mem_In (x : string) (l : list string) : mem x l = true <-> In x l.
Proof.
  unfold mem. rewrite existsb_exists. split.
  - intros (y & Hy & E). apply String.eqb_eq in E. now subst.
  - intros H. exists x. split; [assumption|apply String.eqb_refl].
Qed.

Lemma NoDup_append (x : string) (l : list string) :
  NoDup l -> mem x l = false -> NoDup (append l x).
Proof.
  intros Hl Hx. unfold append.
  apply NoDup_app; [assumption|repeat constructor; intros []|].
  intros y Hy [<-|[]]. apply mem_In in Hy. congruence.
Qed.

Lemma NoDup_slice_to {A : Type} (l : list A) (k : Z) :
  NoDup l -> NoDup (slice_to l k).
Proof.
  intros H. unfold slice_to.
  destruct (0 <=? k)%Z;
    match goal with
    | |- NoDup (firstn ?n l) =>
        rewrite <- (firstn_skipn n l) in H;
        now apply NoDup_app_remove_r in H
    end.
Qed.

Lemma Forall_slice_to {A : Type} (P : A -> Prop) (l : list A) (k : Z) :
  Forall P l -> Forall P (slice_to l k).
Proof.
  intros H. unfold slice_to.
  destruct (0 <=? k)%Z;
    match goal with
    | |- Forall P (firstn ?n l) =>
        rewrite <- (firstn_skipn n l) in H;
        now apply Forall_app in H
    end.
Qed.

Lemma length_slice_to {A : Type} (l : list A) (k : Z) :
  (0 <= k)%Z -> (Z.of_nat (length (slice_to l k)) <= k)%Z.
Proof.
  intros H. unfold slice_to.
  destruct (Z.leb_spec 0 k); [|lia].
  pose proof (firstn_le_length (Z.to_nat k) l). lia.
Qed.

(** ** The loop over the playlist entries *)

Section Collect.

Variable max_downloads : Z.

Lemma collect_NoDup (es : entries) (url_list : list string) :
  NoDup url_list -> NoDup (snd (collect max_downloads es url_list)).
Proof.
  revert url_list; induction es as [|e rest IH|e]; intros l Hl;
    [exact Hl| |exact Hl].
  cbn [collect]. apply IH.
  destruct e as [[video_id|]|]; try assumption;
    destruct (_ <? _)%Z; try assumption.
  destruct (truthy video_id); [|assumption].
  destruct (mem (watch_prefix ++ video_id) l) eqn:E; [assumption|].
  now apply NoDup_append.
Qed.

Lemma collect_Forall (P : string -> Prop) (es : entries)
    (url_list : list string) :
  (forall video_id, P (watch_prefix ++ video_id)) ->
  Forall P url_list -> Forall P (snd (collect max_downloads es url_list)).
Proof.
  intros HP.
  revert url_list; induction es as [|e rest IH|e]; intros l Hl;
    [exact Hl| |exact Hl].
  cbn [collect]. apply IH.
  destruct e as [[video_id|]|]; try assumption;
    destruct (_ <? _)%Z; try assumption.
  destruct (truthy video_id); [|assumption].
  destruct (mem (watch_prefix ++ video_id) l); [assumption|].
  unfold append. apply Forall_app. split; [assumption|].
  constructor; [apply HP|constructor].
Qed.

(** The loop itself stops adding at the cap: it never makes the list
    longer than the larger of its initial length and [max_downloads]. *)
Lemma collect_length (es : entries) (url_list : list string) :
  (Z.of_nat (length (snd (collect max_downloads es url_list)))
   <= Z.max (Z.of_nat (length url_list)) max_downloads)%Z.
Proof.
  revert url_list; induction es as [|e rest IH|e]; intros l;
    [simpl; lia| |simpl; lia].
  cbn [collect].
  match goal with
  | |- context [collect _ rest ?l'] =>
      specialize (IH l');
      assert (Z.max (Z.of_nat (length l')) max_downloads
              <= Z.max (Z.of_nat (length l)) max_downloads)%Z; [|lia]
  end.
  clear IH.
  destruct e as [[video_id|]|]; try lia;
    destruct (Z.ltb_spec (Z.of_nat (length l)) max_downloads); try lia.
  destruct (truthy video_id); [|lia].
  destruct (mem (watch_prefix ++ video_id) l); cbn [negb]; [lia|].
  unfold append. rewrite length_app. simpl. lia.
Qed.

End Collect.

(** ** [extract_urls_from_playlist] *)

Section ExtractionFacts.

Context {World : Type} (X : Extern World).

(** Whatever the engine answers, the [try] block returns, with the list
    as the entry loop left it on some sequence of entries (none when the
    engine failed before the loop). *)
Lemma extract_playlist_returns (url : string) (max_downloads : Z)
    (ydl_opts : opts) (url_list : list string) (st : state World) :
  exists es st',
    extract_playlist X url max_downloads ydl_opts url_list st
      = (Ret (snd (collect max_downloads es url_list)), st') /\
    extraction_only (trace st) (trace st').
Proof.
  assert (Hdone : forall st' : state World,
            extraction_only (trace st) (trace st') ->
            exists es (st'' : state World),
              (Ret (A := list string) url_list, st')
                = (Ret (snd (collect max_downloads es url_list)), st'') /\
              extraction_only (trace st) (trace st''))
    by (intros st' H; exists Done, st'; now split).
  assert (Hsame : extraction_only (trace st) (trace st)) by now left.
  assert (Hone : forall p (w : World),
            extraction_only (trace st)
              (trace {| world := w;
                        trace := (trace st ++ [ExtractPlaylist p])%list |}))
    by (intros p w; right; now exists p).
  unfold extract_playlist, try_except, mbind, lift, emit, call, ret, raise.
  destruct (if contains "list=" url then _ else _) as [playlist_url|e];
    [|now apply Hdone].
  cbn [world trace].
  destruct (extract_info X ydl_opts playlist_url (world st))
    as [[[info|]|e] w]; try (now apply Hdone).
  destruct (playlist_entries info) as [es|]; [|now apply Hdone].
  exists es. eexists. split; [reflexivity|apply Hone].
Qed.

(** [extract_urls_from_playlist] always returns: its result is the seed
    list (empty, or the one video of a [watch?v=] URL), extended by the
    entry loop on some sequence of entries, and cut at [max_downloads]. *)
Lemma extract_urls_from_playlist_shape (url : string) (max_downloads : Z)
    (st : state World) :
  exists seed es st',
    extract_urls_from_playlist X url max_downloads st
      = (Ret (slice_to (snd (collect max_downloads es seed)) max_downloads),
         st') /\
    (seed = [] \/ exists video_id, seed = [watch_prefix ++ video_id]) /\
    extraction_only (trace st) (trace st').
Proof.
  unfold extract_urls_from_playlist.
  set (ydl_opts := [("extract_flat", _); _; _; _]).
  destruct (contains "watch?v=" url && contains "list=" url) eqn:E.
  - apply andb_true_iff in E as [Hw _].
    apply contains_after in Hw as [rest Hw]; [|discriminate].
    unfold mbind at 1. unfold lift at 1.
    rewrite index_split_1, Hw by discriminate.
    unfold mbind at 1. unfold lift at 1. rewrite index_split_0.
    set (seed := [watch_prefix ++ before "&" (before "watch?v=" rest)]).
    destruct (Z.eqb_spec max_downloads 1) as [->|Hne].
    + exists seed, Done, st.
      split; [reflexivity|split; [right; now eexists|now left]].
    + destruct (extract_playlist_returns url max_downloads ydl_opts seed st)
        as (es & st' & H & Ht).
      exists seed, es, st'. split; [|split; [right; now eexists|exact Ht]].
      unfold mbind. now rewrite H.
  - destruct (extract_playlist_returns url max_downloads ydl_opts [] st)
      as (es & st' & H & Ht).
    exists [], es, st'. split; [|split; [now left|exact Ht]].
    unfold mbind. now rewrite H.
Qed.

(** C1: for every URL, every non-negative [max_downloads] and every answer
    of the extraction engine, [extract_urls_from_playlist] returns a list
    of at most [max_downloads] URLs, however many entries the engine
    reports. *)
Theorem extract_urls_from_playlist_cap (url : string) (max_downloads : Z)
    (st : state World) :
  (0 <= max_downloads)%Z ->
  exists url_list st',
    extract_urls_from_playlist X url max_downloads st = (Ret url_list, st') /\
    (Z.of_nat (length url_list) <= max_downloads)%Z.
Proof.
  intros Hmax.
  destruct (extract_urls_from_playlist_shape url max_downloads st)
    as (seed & es & st' & H & _ & _).
  eexists _, st'. split; [exact H|]. now apply length_slice_to.
Qed.

(** C2: the list returned by [extract_urls_from_playlist] has no
    duplicates, the seed of a [watch?v=...&list=...] URL included. *)
Theorem extract_urls_from_playlist_NoDup (url : string) (max_downloads : Z)
    (st : state World) :
  exists url_list st',
    extract_urls_from_playlist X url max_downloads st = (Ret url_list, st') /\
    NoDup url_list.
Proof.
  destruct (extract_urls_from_playlist_shape url max_downloads st)
    as (seed & es & st' & H & Hseed & _).
  eexists _, st'. split; [exact H|].
  apply NoDup_slice_to, collect_NoDup.
  destruct Hseed as [->|[video_id ->]]; repeat constructor; intros [].
Qed.

(** C9: every URL returned by [extract_urls_from_playlist] starts with
    ['https://www.youtube.com/watch?v='], whether it is the seed or comes
    from a playlist entry. *)
Theorem extract_urls_from_playlist_prefix (url : string) (max_downloads : Z)
    (st : state World) :
  exists url_list st',
    extract_urls_from_playlist X url max_downloads st = (Ret url_list, st') /\
    Forall (fun u => prefix "https://www.youtube.com/watch?v=" u = true)
      url_list.
Proof.
  destruct (extract_urls_from_playlist_shape url max_downloads st)
    as (seed & es & st' & H & Hseed & _).
  eexists _, st'. split; [exact H|].
  apply Forall_slice_to, collect_Forall.
  - intros video_id. apply (prefix_app watch_prefix).
  - destruct Hseed as [->|[video_id ->]]; repeat constructor.
    apply (prefix_app watch_prefix).
Qed.

End ExtractionFacts.

(** ** [download_video] *)

Section DownloadFacts.

Context {World : Type} (X : Extern World).

Ltac run_calls :=
  repeat
    (first
     [ progress cbn [world trace negb is_empty]
     | match goal with
     | |- context [extract_info X ?o ?u ?w] =>
         destruct (extract_info X o u w) as [[[?|]|?] ?]
     | |- context [download X ?o ?u ?w] =>
         destruct (download X o u w) as [[?|?] ?]
     | |- context [prepare_filename X ?o ?i ?w] =>
         destruct (prepare_filename X o i w) as [[?|?] ?]
     | |- context [glob X ?d ?p ?w] =>
         destruct (glob X d p w) as [[[|? ?]|?] ?]
       end ]).

(** [download_video] always returns, and a call leaves exactly one
    [DownloadVideo] event. *)
Lemma download_video_returns
    (video_url output_dir type size language video_format audio_format
       log_level : string) (st : state World) :
  exists r w',
    download_video X video_url output_dir type size language video_format
      audio_format log_level st
    = (Ret r,
       {| world := w'; trace := (trace st ++ [DownloadVideo video_url])%list |}).
Proof.
  unfold download_video, try_except, mbind, emit, call, ret.
  cbn [world trace].
  generalize (download_opts output_dir type size video_format audio_format
                log_level).
  intros o. run_calls; eauto.
Qed.

Section Failures.

Variables video_url output_dir type size language video_format audio_format
  log_level : string.
Variable st : state World.

Let o : opts :=
  download_opts output_dir type size video_format audio_format log_level.





End Failures.

End DownloadFacts.

(** ** [get_youtube] *)

Section OrchestrationFacts.

Context {World : Type} (X : Extern World).

Lemma mbind_ret {A B : Type} (m : M World A) (k : A -> M World B)
    (st st' : state World) (a : A) :
  m st = (Ret a, st') -> mbind m k st = k a st'.
Proof. intros H. unfold mbind. now rewrite H. Qed.

Lemma extraction_only_calls (t t' : list event) :
  extraction_only t t' -> download_calls t' = download_calls t.
Proof.
  intros [->|[p ->]]; [reflexivity|].
  induction t as [|[] t IH]; simpl; congruence.
Qed.

Lemma download_calls_app (t t' : list event) :
  download_calls (t ++ t') = (download_calls t ++ download_calls t')%list.
Proof. induction t as [|[] t IH]; simpl; congruence. Qed.

Lemma download_calls_map (url_ls : list string) :
  download_calls (map DownloadVideo url_ls) = url_ls.
Proof. induction url_ls; simpl; congruence. Qed.

(** The list of URLs to download is resolved for every URL and is never
    empty; resolving it downloads nothing. *)
Lemma resolve_urls_returns (url : string) (max_downloads : Z)
    (st : state World) :
  exists url_ls st1,
    resolve_urls X url max_downloads st = (Ret url_ls, st1) /\
    url_ls <> [] /\
    extraction_only (trace st) (trace st1).
Proof.
  assert (Hlast : forall (l : list string) (st1 : state World),
            exists url_ls,
              (if is_empty l then ret (append l url) else ret l) st1
                = (Ret url_ls, st1) /\ url_ls <> []).
  { intros [|x l] st1; eexists; (split; [reflexivity|discriminate]). }
  unfold resolve_urls.
  destruct (contains "list=" url).
  - destruct (extract_urls_from_playlist_shape X url max_downloads st)
      as (seed & es & st1 & H & _ & Ht).
    set (l := slice_to _ _) in H.
    assert (exists l1,
              mbind (extract_urls_from_playlist X url max_downloads)
                (fun url_ls =>
                   if is_empty url_ls && contains "watch?v=" url then
                     a <-- lift (index (split "watch?v=" url) 1) ;;
                     video_id <-- lift (index (split "&" a) 0) ;;
                     ret (append url_ls (watch_prefix ++ video_id))
                   else ret url_ls) st = (Ret l1, st1)) as [l1 Hin].
    { rewrite (mbind_ret _ _ st st1 l H).
      destruct (is_empty l && contains "watch?v=" url) eqn:E;
        [|now eexists].
      apply andb_true_iff in E as [_ Hw].
      apply contains_after in Hw as [rest Hw]; [|discriminate].
      eexists. unfold mbind, lift.
      rewrite index_split_1, Hw by discriminate.
      now rewrite index_split_0. }
    rewrite (mbind_ret _ _ st st1 l1 Hin).
    destruct (Hlast l1 st1) as (url_ls & E & Hne).
    exists url_ls, st1. now rewrite E.
  - destruct (get_video_url_total url) as [clean_url Hc].
    rewrite (mbind_ret _ _ st st [clean_url]).
    + exists [clean_url], st. repeat split; [discriminate|now left].
    + unfold mbind, lift. now rewrite Hc.
Qed.

Section Loop.

Variables output_dir type size language video audio log_level : string.

Local Abbreviation downloads' :=
  (downloads X output_dir type size language video audio log_level).

Lemma downloads_length (st st' : state World) (url_ls : list string)
    (outcomes : list (bool * string)) :
  downloads' st url_ls outcomes st' -> length outcomes = length url_ls.
Proof. induction 1; simpl; congruence. Qed.

(** The calls are made on the URLs of the list, in its order. *)
Lemma downloads_trace (st st' : state World) (url_ls : list string)
    (outcomes : list (bool * string)) :
  downloads' st url_ls outcomes st' ->
  trace st' = (trace st ++ map DownloadVideo url_ls)%list.
Proof.
  induction 1 as [st|st st1 st2 video_url r rest rs Hcall _ IH].
  - simpl. now rewrite app_nil_r.
  - destruct (download_video_returns X video_url output_dir type size
                language video audio log_level st) as (r' & w' & E).
    rewrite E in Hcall. injection Hcall as _ <-.
    rewrite IH. cbn [trace map]. now rewrite <- app_assoc.
Qed.

Lemma successes_failures (outcomes : list (bool * string)) :
  successes outcomes + failures outcomes = length outcomes.
Proof.
  unfold successes, failures.
  induction outcomes as [|[[] t] rs IH]; simpl; lia.
Qed.

(** The loop calls [download_video] on every URL of the list, whatever the
    calls before returned, adds one result line per URL and counts each
    outcome once. *)
Lemma download_loop_run (url_ls : list string) :
  forall (report_lines : list string) (success_count fail_count : nat)
         (st : state World),
  exists outcomes st',
    downloads' st url_ls outcomes st' /\
    download_loop X output_dir type size language video audio log_level
      url_ls report_lines success_count fail_count st
    = (Ret ((report_lines ++ result_lines url_ls outcomes)%list,
            success_count + successes outcomes,
            fail_count + failures outcomes), st').
Proof.
  induction url_ls as [|video_url rest IH]; intros lines sc fc st.
  - exists [], st. split; [constructor|].
    cbn. now rewrite app_nil_r, !Nat.add_0_r.
  - destruct (download_video_returns X video_url output_dir type size
                language video audio log_level st) as ([success t] & w' & E).
    cbn [download_loop]. rewrite (mbind_ret _ _ _ _ _ E).
    set (st1 := {| world := w'; trace := _ |}) in *.
    destruct success.
    + destruct (IH (append lines
                      ("SUCCESS: " ++ t ++ " - " ++ video_url ++ nl))
                   (S sc) fc st1)
        as (rs & st' & Hd & Hl).
      exists ((true, t) :: rs), st'.
      split; [econstructor; eassumption|].
      rewrite Hl. unfold append, successes, failures.
      cbn. rewrite <- app_assoc. repeat f_equal; lia.
    + destruct (IH (append lines
                      ("FAILED: " ++ video_url ++ " - Unable to download"
                         ++ nl))
                   sc (S fc) st1)
        as (rs & st' & Hd & Hl).
      exists ((false, t) :: rs), st'.
      split; [econstructor; eassumption|].
      rewrite Hl. unfold append, successes, failures.
      cbn. rewrite <- app_assoc. repeat f_equal; lia.
Qed.

End Loop.

Section Report.

Variables (generated type rate : string) (max_downloads : Z).
Variables (url_ls : list string) (outcomes : list (bool * string)).
Variables processed success_count fail_count : nat.

Let report_lines : list string :=
  (report_header generated type max_downloads
   ++ result_lines url_ls outcomes
   ++ report_summary processed success_count fail_count rate)%list.

Lemma filter_result_lines (p : string -> bool) (b : bool) :
  (forall u r, p (result_line u r) = b) ->
  filter p (result_lines url_ls outcomes)
  = if b then result_lines url_ls outcomes else [].
Proof.
  intros Hp. unfold result_lines.
  induction (combine url_ls outcomes) as [|[u r] l IH]; cbn [map filter].
  - now destruct b.
  - cbn [fst snd]. rewrite Hp, IH. now destruct b.
Qed.

(** The lines of a report that start with ['SUCCESS:'] or ['FAILED:'] are
    its result lines. *)
Lemma report_result_lines :
  filter is_result_line report_lines = result_lines url_ls outcomes.
Proof.
  unfold report_lines. rewrite !filter_app.
  rewrite (filter_result_lines is_result_line true)
    by (intros u [[] t]; reflexivity).
  change (filter is_result_line (report_header generated type max_downloads))
    with (@nil string).
  change (filter is_result_line
            (report_summary processed success_count fail_count rate))
    with (@nil string).
  now rewrite app_nil_r.
Qed.

(** The one line of a report that starts with [label] is the summary line
    of that label. *)
Lemma report_total_processed :
  filter (prefix "Total Processed:") report_lines
  = ["Total Processed: " ++ str_of_nat processed ++ nl].
Proof.
  unfold report_lines. rewrite !filter_app.
  rewrite (filter_result_lines _ false) by (intros u [[] t]; reflexivity).
  reflexivity.
Qed.

Lemma report_total_success :
  filter (prefix "Total Success:") report_lines
  = ["Total Success: " ++ str_of_nat success_count ++ nl].
Proof.
  unfold report_lines. rewrite !filter_app.
  rewrite (filter_result_lines _ false) by (intros u [[] t]; reflexivity).
  reflexivity.
Qed.

Lemma report_total_failures :
  filter (prefix "Total Failures:") report_lines
  = ["Total Failures: " ++ str_of_nat fail_count ++ nl].
Proof.
  unfold report_lines. rewrite !filter_app.
  rewrite (filter_result_lines _ false) by (intros u [[] t]; reflexivity).
  reflexivity.
Qed.

(** The result line at a position is the line of the URL at that
    position. *)
Lemma result_lines_nth (i : nat) (video_url : string) :
  length outcomes = length url_ls ->
  nth_error url_ls i = Some video_url ->
  exists r,
    nth_error outcomes i = Some r /\
    nth_error (result_lines url_ls outcomes) i
      = Some (result_line video_url r).
Proof.
  unfold result_lines. clear report_lines.
  revert i outcomes; induction url_ls as [|u us IH];
    intros [|i] [|r rs] Hlen Hi; try discriminate.
  - injection Hi as <-. exists r. now split.
  - cbn [nth_error combine map] in *. apply IH; [|assumption].
    simpl in Hlen. congruence.
Qed.

End Report.

Section Run.

Variables (config : Config) (root_dir : string) (url : option string).
Variables type size language video audio log_level : string.
Variable st : state World.

Let output_dir : string :=
  path_join root_dir (get_or (DOWNLOADS config) "downloads").

Let max_downloads : Z := get_or (MAX_DOWNLOADS config) 5%Z.

(** The path and the lines of the report of a run that resolved [url_ls]
    in state [st1] and got [outcomes] from the downloads. *)
Let report_path (st1 : state World) : string :=
  path_join output_dir
    ("report_" ++ now_strftime X "%Y%m%d_%H%M%S" (world st1) ++ ".txt").

Let report (st1 : state World) (url_ls : list string)
    (outcomes : list (bool * string)) : list string :=
  (report_header (now_strftime X "%Y-%m-%d %H:%M:%S" (world st1)) type
     max_downloads
   ++ result_lines url_ls outcomes
   ++ report_summary (length url_ls) (successes outcomes) (failures outcomes)
        (format_rate X (successes outcomes) (length url_ls)))%list.

(** C7: for every type other than ['video'] and ['audio'], [get_youtube]
    returns [(0, 0, None)] and leaves the world and the trace as they
    were: it calls [download_video] on no URL and writes no report. *)
Theorem get_youtube_invalid_type :
  type <> "video" -> type <> "audio" ->
  exists st',
    get_youtube X config root_dir url type size language video audio
      log_level st = (Ret (0, 0, None), st') /\
    world st' = world st /\
    trace st' = trace st /\
    download_calls (trace st') = download_calls (trace st).
Proof.
  intros Hv Ha. exists st. repeat split.
  unfold get_youtube, mem. cbn [existsb].
  apply String.eqb_neq in Hv, Ha. now rewrite Hv, Ha.
Qed.

(** A run with a valid type: the URLs are resolved, downloaded one after
    the other, and the report is written last. *)
Lemma get_youtube_run (u : string) :
  type = "video" \/ type = "audio" ->
  match url with None => YT_CHANNEL config | Some u' => Some u' end = Some u ->
  exists url_ls st1 outcomes st2,
    resolve_urls X u max_downloads st = (Ret url_ls, st1) /\
    url_ls <> [] /\
    extraction_only (trace st) (trace st1) /\
    downloads X output_dir type size language video audio log_level
      st1 url_ls outcomes st2 /\
    get_youtube X config root_dir url type size language video audio log_level
      st
    = (Ret (successes outcomes, failures outcomes, Some (report_path st1)),
       {| world :=
            writelines X (report_path st1) (report st1 url_ls outcomes)
              (world st2);
          trace :=
            (trace st2
             ++ [WriteReport (report_path st1)
                   (report st1 url_ls outcomes)])%list |}).
Proof.
  intros Htype Hurl.
  destruct (resolve_urls_returns u max_downloads st)
    as (url_ls & st1 & Hres & Hne & Ht).
  destruct (download_loop_run output_dir type size language video audio
              log_level url_ls
              (report_header
                 (now_strftime X "%Y-%m-%d %H:%M:%S" (world st1)) type
                 max_downloads) 0 0 st1)
    as (outcomes & st2 & Hd & Hloop).
  exists url_ls, st1, outcomes, st2.
  repeat (split; [assumption|]).
  unfold get_youtube. rewrite Hurl.
  assert (negb (mem type ["video"; "audio"]) = false) as ->
    by (destruct Htype; subst; reflexivity).
  rewrite (mbind_ret (ret u) _ st st u eq_refl).
  fold max_downloads output_dir.
  rewrite (mbind_ret _ _ _ _ _ Hres).
  destruct url_ls as [|u0 url_ls]; [congruence|]. cbn [is_empty].
  rewrite (mbind_ret (read _) _ st1 st1 _ eq_refl).
  rewrite (mbind_ret (read _) _ st1 st1 _ eq_refl).
  unfold report_header in Hloop.
  rewrite (mbind_ret _ _ _ _ _ Hloop).
  cbn [length Nat.ltb Nat.leb].
  unfold mbind, update, emit, ret. cbn [world trace Nat.add].
  unfold report, report_path, report_header, report_summary, append.
  cbn [length]. rewrite <- !app_assoc. reflexivity.
Qed.


(** C5: a run of [get_youtube] on a resolved list calls [download_video]
    on each URL of the list and returns
    [(success_count, fail_count, report_path)] with
    [success_count + fail_count] the length of the list and the counts
    those of the outcomes of the calls; the report is written to the world
    that the last call left.  The lines
    written to the report that start with ['SUCCESS:'] or ['FAILED:'] are
    the result lines, one per URL of the list, and the lines labelled
    ['Total Processed'], ['Total Success'] and ['Total Failures'] carry
    the length of the list, [success_count] and [fail_count]. *)
Theorem get_youtube_report (u : string) :
  type = "video" \/ type = "audio" ->
  match url with None => YT_CHANNEL config | Some u' => Some u' end = Some u ->
  exists url_ls st1 outcomes st2 success_count fail_count report_path
         report_lines st',
    resolve_urls X u max_downloads st = (Ret url_ls, st1) /\
    downloads X output_dir type size language video audio log_level
      st1 url_ls outcomes st2 /\
    get_youtube X config root_dir url type size language video audio
      log_level st
    = (Ret (success_count, fail_count, Some report_path), st') /\
    world st' = writelines X report_path report_lines (world st2) /\
    trace st'
    = (trace st1 ++ map DownloadVideo url_ls
       ++ [WriteReport report_path report_lines])%list /\
    success_count + fail_count = length url_ls /\
    last (trace st') (WriteReport "" []) = WriteReport report_path report_lines /\
    length outcomes = length url_ls /\
    success_count = successes outcomes /\
    fail_count = failures outcomes /\
    filter is_result_line report_lines = result_lines url_ls outcomes /\
    length (filter is_result_line report_lines) = length url_ls /\
    filter (prefix "Total Processed:") report_lines
    = ["Total Processed: " ++ str_of_nat (length url_ls) ++ nl] /\
    filter (prefix "Total Success:") report_lines
    = ["Total Success: " ++ str_of_nat success_count ++ nl] /\
    filter (prefix "Total Failures:") report_lines
    = ["Total Failures: " ++ str_of_nat fail_count ++ nl].
Proof.
  intros Htype Hurl.
  destruct (get_youtube_run u Htype Hurl)
    as (url_ls & st1 & outcomes & st2 & Hres & _ & _ & Hd & Hrun).
  pose proof (downloads_length _ _ _ _ _ _ _ _ _ _ _ Hd) as Hlen.
  exists url_ls, st1, outcomes, st2. eexists _, _, _, _, _.
  split; [exact Hres|]. split; [exact Hd|]. split; [exact Hrun|].
  split; [reflexivity|].
  split.
  { cbn [trace]. rewrite (downloads_trace _ _ _ _ _ _ _ _ _ _ _ Hd).
    now rewrite <- app_assoc. }
  split; [rewrite successes_failures; exact Hlen|].
  split; [cbn [trace]; apply last_last|].
  repeat (split; [first [exact Hlen|reflexivity]|]).
  split; [apply report_result_lines|].
  split.
  { unfold report. rewrite report_result_lines.
    unfold result_lines. rewrite length_map, length_combine. lia. }
  split; [apply report_total_processed|].
  split; [apply report_total_success|apply report_total_failures].
Qed.

(** C6: [get_youtube] calls [download_video] on the resolved URLs one
    after the other, in the order of the list; the result lines of the
    report are in that order, the line at a position being that of the
    URL at that position; and the report is written after the last
    call. *)
Theorem get_youtube_sequential (u : string) :
  type = "video" \/ type = "audio" ->
  match url with None => YT_CHANNEL config | Some u' => Some u' end = Some u ->
  exists url_ls st1 outcomes st2 r report_path report_lines st',
    resolve_urls X u max_downloads st = (Ret url_ls, st1) /\
    extraction_only (trace st) (trace st1) /\
    downloads X output_dir type size language video audio log_level
      st1 url_ls outcomes st2 /\
    get_youtube X config root_dir url type size language video audio
      log_level st = (Ret r, st') /\
    trace st'
    = (trace st1 ++ map DownloadVideo url_ls
       ++ [WriteReport report_path report_lines])%list /\
    world st' = writelines X report_path report_lines (world st2) /\
    (forall i video_url,
       nth_error url_ls i = Some video_url ->
       exists outcome,
         nth_error outcomes i = Some outcome /\
         nth_error (filter is_result_line report_lines) i
         = Some (result_line video_url outcome)).
Proof.
  intros Htype Hurl.
  destruct (get_youtube_run u Htype Hurl)
    as (url_ls & st1 & outcomes & st2 & Hres & _ & Ht & Hd & Hrun).
  exists url_ls, st1, outcomes, st2. eexists _, _, _, _.
  split; [exact Hres|]. split; [exact Ht|]. split; [exact Hd|].
  split; [exact Hrun|]. cbn [trace world].
  split; [|split; [reflexivity|]].
  - rewrite (downloads_trace _ _ _ _ _ _ _ _ _ _ _ Hd).
    now rewrite <- app_assoc.
  - intros i video_url Hi. unfold report. rewrite report_result_lines.
    apply result_lines_nth; [|assumption].
    exact (downloads_length _ _ _ _ _ _ _ _ _ _ _ Hd).
Qed.

(** C10: for every URL the resolved list is non-empty, the original URL
    being appended when nothing else was found; so a run with a valid
    type never takes the return [(0, 0, None)] of the second emptiness
    check: it returns a report path. *)
Theorem resolved_urls_nonempty (u : string) :
  (exists url_ls st1,
     resolve_urls X u max_downloads st = (Ret url_ls, st1) /\
     url_ls <> []) /\
  (type = "video" \/ type = "audio" ->
   match url with None => YT_CHANNEL config | Some u' => Some u' end = Some u ->
   exists success_count fail_count report_path st',
     get_youtube X config root_dir url type size language video audio
       log_level st
     = (Ret (success_count, fail_count, Some report_path), st')).
Proof.
  split.
  - destruct (resolve_urls_returns u max_downloads st)
      as (url_ls & st1 & Hres & Hne & _).
    now exists url_ls, st1.
  - intros Htype Hurl.
    destruct (get_youtube_run u Htype Hurl)
      as (url_ls & st1 & outcomes & st2 & _ & _ & _ & _ & Hrun).
    eexists _, _, _, _. exact Hrun.
Qed.

End Run.

End OrchestrationFacts.

(** ** The properties on the sample world *)

Module SampleRun.

Import Sample.

Example split_video_id :
  split "v=" "https://www.youtube.com/watch?v=abc&list=PL1&index=2"
  = ["https://www.youtube.com/watch?"; "abc&list=PL1&index=2"].
Proof. reflexivity. Qed.

Example split_overlap : split "aa" "aaa" = [""; "a"].
Proof. reflexivity. Qed.

Example split_empty : split "&" "" = [""].
Proof. reflexivity. Qed.

Example split_adjacent : split "ab" "xabyabab" = ["x"; "y"; ""; ""].
Proof. reflexivity. Qed.

Example get_video_url_playlist :
  get_video_url "https://www.youtube.com/watch?v=abc&list=PL1&index=2"
  = Ret "https://www.youtube.com/watch?v=abc".
Proof. reflexivity. Qed.

Example slice_to_negative : slice_to ["a"; "b"; "c"] (-1) = ["a"; "b"].
Proof. reflexivity. Qed.

Example extract_three :
  fst (extract_urls_from_playlist extern
         "https://www.youtube.com/watch?v=bbb&list=PL1&index=50" 3 st0)
  = Ret ["https://www.youtube.com/watch?v=bbb";
         "https://www.youtube.com/watch?v=aaa";
         "https://www.youtube.com/watch?v=ccc"].
Proof. reflexivity. Qed.

Example extract_zero :
  fst (extract_urls_from_playlist extern
         "https://www.youtube.com/watch?v=bbb&list=PL1&index=50" 0 st0)
  = Ret [].
Proof. reflexivity. Qed.

Example extract_playlist_only :
  fst (extract_urls_from_playlist extern
         "https://www.youtube.com/playlist?list=PL1" 2 st0)
  = Ret ["https://www.youtube.com/watch?v=aaa";
         "https://www.youtube.com/watch?v=bbb"].
Proof. reflexivity. Qed.

Example get_youtube_counts :
  fst (get_youtube extern config "/proj" None "video" "760" "en" "mp4" "mp3"
         "INFO" st0)
  = Ret (1, 2, Some "/proj/downloads/report_20250101_000000.txt").
Proof. vm_compute. reflexivity. Qed.

Lemma extract_urls_from_playlist_cap_witness :
  exists url_list st',
    extract_urls_from_playlist extern
      "https://www.youtube.com/watch?v=bbb&list=PL1&index=50" 2 st0
    = (Ret url_list, st') /\
    (Z.of_nat (length url_list) <= 2)%Z.
Proof.
  apply (extract_urls_from_playlist_cap extern
           "https://www.youtube.com/watch?v=bbb&list=PL1&index=50" 2 st0).
  lia.
Defined.

Lemma get_youtube_invalid_type_witness :
  exists st',
    get_youtube extern config "/proj" None "movie" "760" "en" "mp4" "mp3"
      "INFO" st0 = (Ret (0, 0, None), st') /\
    trace st' = [].
Proof.
  destruct (get_youtube_invalid_type extern config "/proj" None "movie" "760"
              "en" "mp4" "mp3" "INFO" st0)
    as (st' & H & _ & Ht & _); [discriminate|discriminate|].
  exists st'. split; assumption.
Defined.


Lemma get_youtube_report_witness :
  exists success_count fail_count report_path st',
    get_youtube extern config "/proj" None "video" "760" "en" "mp4" "mp3"
      "INFO" st0
    = (Ret (success_count, fail_count, Some report_path), st') /\
    success_count + fail_count = 3.
Proof.
  destruct (get_youtube_report extern config "/proj" None "video" "760" "en"
              "mp4" "mp3" "INFO" st0
              "https://www.youtube.com/watch?v=bbb&list=PL1&index=50")
    as (url_ls & st1 & outcomes & st2 & sc & fc & path & lines & st' & Hres
        & _ & Hrun & _ & _ & Hsum & _); [left; reflexivity|reflexivity|].
  vm_compute in Hres. injection Hres as <- <-.
  exists sc, fc, path, st'. split; assumption.
Defined.

Lemma get_youtube_sequential_witness :
  exists r report_path report_lines st',
    get_youtube extern config "/proj" None "video" "760" "en" "mp4" "mp3"
      "INFO" st0 = (Ret r, st') /\
    trace st'
    = [ExtractPlaylist "https://www.youtube.com/playlist?list=PL1";
       DownloadVideo "https://www.youtube.com/watch?v=bbb";
       DownloadVideo "https://www.youtube.com/watch?v=aaa";
       DownloadVideo "https://www.youtube.com/watch?v=ccc";
       WriteReport report_path report_lines].
Proof.
  destruct (get_youtube_sequential extern config "/proj" None "video" "760"
              "en" "mp4" "mp3" "INFO" st0
              "https://www.youtube.com/watch?v=bbb&list=PL1&index=50")
    as (url_ls & st1 & outcomes & st2 & r & path & lines & st' & Hres & _ & _
        & Hrun & Htrace & _); [left; reflexivity|reflexivity|].
  vm_compute in Hres. injection Hres as <- <-.
  exists r, path, lines, st'. split; assumption.
Defined.

Lemma resolved_urls_nonempty_witness :
  exists success_count fail_count report_path st',
    get_youtube extern config "/proj" (Some "https://youtu.be/xyz") "audio"
      "760" "en" "mp4" "mp3" "INFO" st0
    = (Ret (success_count, fail_count, Some report_path), st').
Proof.
  apply (proj2 (resolved_urls_nonempty extern config "/proj"
                  (Some "https://youtu.be/xyz") "audio" "760" "en" "mp4"
                  "mp3" "INFO" st0 "https://youtu.be/xyz"));
    [right; reflexivity|reflexivity].
Defined.

End SampleRun.

(** * Further properties *)

(** ** What [extract_urls_from_playlist] computes *)

Lemma text_after_cut (key url rest : string) :
  key <> "" -> after key url = Some rest ->
  text_after key url = Ret (before "&" (before key rest)).
Proof.
  intros Hkey H. unfold text_after.
  rewrite index_split_1, H by assumption. cbn [bind].
  apply index_split_0.
Qed.

Lemma playlist_url_ret (url : string) :
  (if contains "list=" url then
     a <- index (split "list=" url) 1 ;;
     playlist_id <- index (split "&" a) 0 ;;
     Ret ("https://www.youtube.com/playlist?list=" ++ playlist_id)
   else Ret url) = Ret (playlist_url_of url).
Proof.
  unfold playlist_url_of. destruct (contains "list=" url) eqn:E;
    [|reflexivity].
  apply contains_after in E as [rest E]; [|discriminate].
  rewrite (text_after_cut "list=" url rest) by (discriminate || assumption).
  rewrite index_split_1, E by discriminate. cbn [bind].
  now rewrite index_split_0.
Qed.

Section ExtractionMore.

Context {World : Type} (X : Extern World).

Lemma extract_playlist_eq (url : string) (max_downloads : Z)
    (ydl_opts : opts) (url_list : list string) (st : state World) :
  extract_playlist X url max_downloads ydl_opts url_list st
  = (Ret (after_extraction max_downloads
            (fst (extract_info X ydl_opts (playlist_url_of url) (world st)))
            url_list),
     {| world :=
          snd (extract_info X ydl_opts (playlist_url_of url) (world st));
        trace := (trace st ++ [ExtractPlaylist (playlist_url_of url)])%list |}).
Proof.
  unfold extract_playlist, try_except, mbind, lift, emit, call, ret, raise.
  rewrite playlist_url_ret. cbn [world trace].
  destruct (extract_info X ydl_opts (playlist_url_of url) (world st))
    as [[[info|]|e] w]; cbn [fst snd after_extraction]; try reflexivity.
  now destruct (playlist_entries info).
Qed.

(** [extract_urls_from_playlist] in one equation: with a seed and a cap of
    one it returns the seed and leaves the world alone; otherwise it asks
    the engine once and cuts what the [try] block leaves. *)
Lemma extract_urls_from_playlist_eq (url : string) (max_downloads : Z)
    (st : state World) :
  extract_urls_from_playlist X url max_downloads st
  = if negb (is_empty (seed_of url)) && (max_downloads =? 1)%Z
    then (Ret (seed_of url), st)
    else
      (Ret (slice_to
              (after_extraction max_downloads
                 (fst (extract_info X (flat_opts max_downloads)
                         (playlist_url_of url) (world st)))
                 (seed_of url))
              max_downloads),
       {| world :=
            snd (extract_info X (flat_opts max_downloads)
                   (playlist_url_of url) (world st));
          trace :=
            (trace st ++ [ExtractPlaylist (playlist_url_of url)])%list |}).
Proof.
  unfold extract_urls_from_playlist, seed_of. fold (flat_opts max_downloads).
  destruct (contains "watch?v=" url && contains "list=" url) eqn:E.
  - apply andb_true_iff in E as [Hw _].
    apply contains_after in Hw as [rest Hw]; [|discriminate].
    rewrite (text_after_cut "watch?v=" url rest)
      by (discriminate || assumption).
    unfold mbind at 1. unfold lift at 1.
    rewrite index_split_1, Hw by discriminate.
    unfold mbind at 1. unfold lift at 1. rewrite index_split_0.
    cbn [is_empty negb andb].
    destruct (max_downloads =? 1)%Z; [reflexivity|].
    unfold mbind. now rewrite extract_playlist_eq.
  - cbn [is_empty negb andb]. unfold mbind. now rewrite extract_playlist_eq.
Qed.

End ExtractionMore.

(** ** The entry loop as a cut of the distinct URLs *)

Section Distinct.

Variable max_downloads : Z.
Hypothesis max_nonneg : (0 <= max_downloads)%Z.

Let n : nat := Z.to_nat max_downloads.

(** [c] is the list of the loop and [a] the list without the cap. *)
Let related (c a : list string) : Prop :=
  firstn n c = firstn n a /\ (length c < n -> c = a).

Lemma related_step (c a : list string) (x : string) :
  related c a ->
  related
    (if (Z.of_nat (length c) <? max_downloads)%Z
     then if negb (mem x c) then append c x else c
     else c)
    (add_new a x).
Proof.
  intros [H1 H2]. unfold add_new, related.
  destruct (Z.ltb_spec (Z.of_nat (length c)) max_downloads) as [Hlt|Hge].
  - assert (c = a) as -> by (apply H2; unfold n; lia).
    destruct (mem x a); cbn [negb]; split; auto.
  - assert (Hc : n <= length c) by (unfold n; lia).
    assert (Ha : n <= length a).
    { apply (f_equal (@length string)) in H1.
      rewrite !length_firstn in H1. lia. }
    split; [|lia].
    destruct (mem x a); [exact H1|].
    unfold append. rewrite firstn_app.
    replace (n - length a) with 0 by lia.
    cbn [firstn]. now rewrite app_nil_r.
Qed.

Lemma collect_related (es : entries) (c a : list string) :
  related c a ->
  related (snd (collect max_downloads es c)) (distinct_from a (entry_urls es)).
Proof.
  revert c a; induction es as [|e rest IH|e]; intros c a H;
    [exact H| |exact H].
  cbn [collect entry_urls].
  destruct e as [[video_id|]|]; try (now apply IH).
  - destruct (truthy video_id) eqn:T.
    + cbn [distinct_from fold_left]. apply IH.
      now apply related_step.
    + apply IH. now destruct (_ <? _)%Z.
  - apply IH. now destruct (_ <? _)%Z.
Qed.

(** Cut at the cap, what the loop leaves is the first [max_downloads] of
    the distinct URLs. *)
Lemma collect_distinct (es : entries) (seed : list string) :
  slice_to (snd (collect max_downloads es seed)) max_downloads
  = firstn n (distinct_from seed (entry_urls es)).
Proof.
  unfold slice_to. destruct (Z.leb_spec 0 max_downloads); [|lia].
  apply (collect_related es seed seed). now split.
Qed.

End Distinct.

Lemma distinct_from_prefix (l acc : list string) :
  exists t, distinct_from acc l = (acc ++ t)%list.
Proof.
  revert acc; induction l as [|x l IH]; intros acc.
  - exists []. cbn. now rewrite app_nil_r.
  - cbn [distinct_from fold_left]. destruct (IH (add_new acc x)) as [t Ht].
    unfold distinct_from in Ht. rewrite Ht. unfold add_new, append.
    destruct (mem x acc); [now exists t|].
    exists (x :: t). now rewrite <- app_assoc.
Qed.

(** [distinct_from acc l] has the elements of [acc] and of [l], and no
    element twice when [acc] has none twice. *)
Lemma distinct_from_In (l acc : list string) (x : string) :
  In x (distinct_from acc l) <-> In x acc \/ In x l.
Proof.
  revert acc; induction l as [|y l IH]; intros acc.
  - cbn. tauto.
  - cbn [distinct_from fold_left]. unfold distinct_from in IH. rewrite IH.
    unfold add_new, append. destruct (mem y acc) eqn:E.
    + apply mem_In in E. cbn [In]. split; [tauto|].
      intros [H|[<-|H]]; auto.
    + rewrite in_app_iff. cbn [In]. tauto.
Qed.

Lemma distinct_from_NoDup (l acc : list string) :
  NoDup acc -> NoDup (distinct_from acc l).
Proof.
  revert acc; induction l as [|y l IH]; intros acc H; [exact H|].
  cbn [distinct_from fold_left]. apply IH. unfold add_new.
  destruct (mem y acc) eqn:E; [exact H|now apply NoDup_append].
Qed.

Lemma seed_of_cases (url : string) :
  seed_of url = [] \/ exists video_id, seed_of url = [watch_prefix ++ video_id].
Proof.
  unfold seed_of. destruct (_ && _); [|now left].
  destruct (text_after "watch?v=" url); [right; now eexists|now left].
Qed.

Lemma seed_of_watch (url : string) :
  contains "watch?v=" url = true -> contains "list=" url = true ->
  exists video_id,
    text_after "watch?v=" url = Ret video_id /\
    seed_of url = [watch_prefix ++ video_id].
Proof.
  intros Hw Hl. unfold seed_of. rewrite Hw, Hl. cbn [andb].
  apply contains_after in Hw as [rest Hw]; [|discriminate].
  rewrite (text_after_cut "watch?v=" url rest)
    by (discriminate || assumption).
  now eexists.
Qed.

Section ExtractionExtras.

Context {World : Type} (X : Extern World).
Variables (url : string) (max_downloads : Z) (st : state World).

(** X1: when the engine reports the entries of the playlist,
    [extract_urls_from_playlist] returns the first [max_downloads] distinct
    video URLs, the seed of a [watch?v=] URL first and then the entries in
    the order of the playlist. *)
Theorem extract_urls_first_distinct (info : info_dict) (es : entries)
    (w : World) :
  (0 <= max_downloads)%Z ->
  extract_info X (flat_opts max_downloads) (playlist_url_of url) (world st)
    = (Ret (Some info), w) ->
  playlist_entries info = Some es ->
  fst (extract_urls_from_playlist X url max_downloads st)
  = Ret (firstn (Z.to_nat max_downloads)
           (distinct_from (seed_of url) (entry_urls es))).
Proof.
  intros Hmax Hinfo Hes. rewrite extract_urls_from_playlist_eq.
  destruct (negb (is_empty (seed_of url)) && (max_downloads =? 1)%Z) eqn:E.
  - apply andb_true_iff in E as [Hseed H1].
    apply Z.eqb_eq in H1. subst max_downloads. cbn [fst].
    destruct (seed_of_cases url) as [Hs|[video_id Hs]]; rewrite Hs in *;
      [discriminate|].
    destruct (distinct_from_prefix (entry_urls es) [watch_prefix ++ video_id])
      as [t ->].
    reflexivity.
  - cbn [fst]. rewrite Hinfo. cbn [fst after_extraction]. rewrite Hes.
    now rewrite collect_distinct.
Qed.

(** X2: for a [watch?v=] URL with a playlist and a cap of one,
    [extract_urls_from_playlist] returns the video of the URL alone and
    does not consult the engine: the world and the trace are unchanged. *)
Theorem extract_urls_cap_one :
  contains "watch?v=" url = true -> contains "list=" url = true ->
  exists video_id,
    text_after "watch?v=" url = Ret video_id /\
    extract_urls_from_playlist X url 1 st
    = (Ret [watch_prefix ++ video_id], st).
Proof.
  intros Hw Hl. destruct (seed_of_watch url Hw Hl) as (video_id & Ht & Hs).
  exists video_id. split; [exact Ht|].
  rewrite extract_urls_from_playlist_eq, Hs. reflexivity.
Qed.

Lemma extract_urls_engine_fails_eq :
  (forall info,
     fst (extract_info X (flat_opts max_downloads) (playlist_url_of url)
            (world st)) = Ret (Some info) ->
     playlist_entries info = None) ->
  fst (extract_urls_from_playlist X url max_downloads st)
  = Ret (slice_to (seed_of url) max_downloads).
Proof.
  intros Hfail. rewrite extract_urls_from_playlist_eq.
  destruct (negb (is_empty (seed_of url)) && (max_downloads =? 1)%Z) eqn:E.
  - apply andb_true_iff in E as [Hseed H1].
    apply Z.eqb_eq in H1. subst max_downloads. cbn [fst].
    destruct (seed_of_cases url) as [Hs|[video_id Hs]]; rewrite Hs in *;
      [discriminate|reflexivity].
  - cbn [fst].
    destruct (fst (extract_info X (flat_opts max_downloads)
                     (playlist_url_of url) (world st)))
      as [[info|]|e]; cbn [after_extraction]; try reflexivity.
    now rewrite (Hfail info eq_refl).
Qed.

(** X3: when the extraction fails (the engine raises, returns no
    metadata, or returns metadata without entries),
    [extract_urls_from_playlist] raises nothing and returns what it
    started from, cut at the cap: the video of a [watch?v=] URL, or the
    empty list. *)
Theorem extract_urls_engine_fails :
  (forall info,
     fst (extract_info X (flat_opts max_downloads) (playlist_url_of url)
            (world st)) = Ret (Some info) ->
     playlist_entries info = None) ->
  fst (extract_urls_from_playlist X url max_downloads st)
  = Ret (slice_to (seed_of url) max_downloads).
Proof. exact extract_urls_engine_fails_eq. Qed.

Lemma extract_urls_nonpositive :
  (max_downloads <= 0)%Z ->
  extract_urls_from_playlist X url max_downloads st
  = (Ret [],
     {| world :=
          snd (extract_info X (flat_opts max_downloads)
                 (playlist_url_of url) (world st));
        trace := (trace st ++ [ExtractPlaylist (playlist_url_of url)])%list |}).
Proof.
  intros Hmax. rewrite extract_urls_from_playlist_eq.
  destruct (Z.eqb_spec max_downloads 1) as [->|_]; [lia|].
  rewrite andb_false_r. f_equal. f_equal.
  set (l := after_extraction _ _ _).
  assert (Hl : length l <= 1).
  { subst l. unfold after_extraction.
    assert (Hs : length (seed_of url) <= 1)
      by (destruct (seed_of_cases url) as [->|[v ->]]; simpl; lia).
    destruct (fst _) as [[info|]|e]; try exact Hs.
    destruct (playlist_entries info) as [es|]; [|exact Hs].
    pose proof (collect_length max_downloads es (seed_of url)). lia. }
  unfold slice_to. destruct (Z.leb_spec 0 max_downloads).
  - replace max_downloads with 0%Z by lia. reflexivity.
  - replace (length l - Z.to_nat (- max_downloads)) with 0 by lia.
    reflexivity.
Qed.

(** X4: with a cap of zero or less, [extract_urls_from_playlist] returns
    the empty list, also for a [watch?v=] URL and whatever the engine
    reports. *)
Theorem extract_urls_cap_nonpositive :
  (max_downloads <= 0)%Z ->
  fst (extract_urls_from_playlist X url max_downloads st) = Ret [].
Proof. intros Hmax. now rewrite extract_urls_nonpositive. Qed.

End ExtractionExtras.

(** ** Which videos [get_youtube] downloads *)

Section ResolveMore.

Context {World : Type} (X : Extern World).

(** A URL without playlist is taken as it is, and the engine is not
    asked to list anything. *)
Lemma resolve_urls_single (url : string) (max_downloads : Z)
    (st : state World) :
  contains "list=" url = false ->
  resolve_urls X url max_downloads st = (Ret [url], st).
Proof.
  intros H. unfold resolve_urls. rewrite H.
  assert (get_video_url url = Ret url) as Hg.
  { apply get_video_url_unchanged.
    destruct (contains "&list=" url) eqn:E; [|reflexivity].
    apply contains_tail in E. congruence. }
  unfold mbind, lift. rewrite Hg. reflexivity.
Qed.

(** A URL with a playlist: the extracted list, or, when that is empty, the
    video of the URL, or, without one, the URL itself. *)
Lemma resolve_urls_playlist (url : string) (max_downloads : Z)
    (st st1 : state World) (l : list string) :
  contains "list=" url = true ->
  extract_urls_from_playlist X url max_downloads st = (Ret l, st1) ->
  resolve_urls X url max_downloads st
  = (Ret (if is_empty l
          then match seed_of url with
               | [] => [url]
               | _ :: _ => seed_of url
               end
          else l), st1).
Proof.
  intros Hl He. unfold resolve_urls. rewrite Hl.
  unfold mbind at 1. unfold mbind at 1. rewrite He.
  destruct l as [|x l]; cbn [is_empty andb]; [|reflexivity].
  destruct (contains "watch?v=" url) eqn:Hw.
  - destruct (seed_of_watch url Hw Hl) as (video_id & Ht & ->).
    unfold text_after in Ht. unfold mbind, lift.
    destruct (index (split "watch?v=" url) 1) as [a|e]; [|discriminate].
    cbn [bind] in Ht. rewrite Ht. reflexivity.
  - unfold seed_of. rewrite Hw. reflexivity.
Qed.

(** The resolved list has at least one URL and at most [max_downloads],
    or one when the cap is lower. *)
Lemma resolve_urls_length (url : string) (max_downloads : Z)
    (st st1 : state World) (url_ls : list string) :
  resolve_urls X url max_downloads st = (Ret url_ls, st1) ->
  (1 <= Z.of_nat (length url_ls) <= Z.max 1 max_downloads)%Z.
Proof.
  destruct (contains "list=" url) eqn:Hl.
  - destruct (extract_urls_from_playlist_shape X url max_downloads st)
      as (seed & es & st2 & He & _ & _).
    rewrite (resolve_urls_playlist _ _ _ _ _ Hl He). intros [= <- _].
    set (l := slice_to _ _) in *.
    assert (Hlen : (Z.of_nat (length l) <= Z.max 0 max_downloads)%Z).
    { destruct (Z.leb_spec 0 max_downloads) as [Hpos|Hneg].
      - pose proof (length_slice_to (snd (collect max_downloads es seed))
                      max_downloads Hpos). fold l in H. lia.
      - rewrite extract_urls_nonpositive in He by lia.
        injection He as <- _. simpl. lia. }
    destruct l as [|x l]; cbn [is_empty].
    + destruct (seed_of_cases url) as [->|[v ->]]; simpl; lia.
    + simpl in *. lia.
  - rewrite (resolve_urls_single _ _ _ Hl). intros [= <- _]. simpl. lia.
Qed.


Section RunMore.

Variables (config : Config) (root_dir : string) (url : option string).
Variables type size language video audio log_level : string.
Variable st : state World.


Lemma get_youtube_no_url_eq :
  mem type ["video"; "audio"] = true ->
  match url with None => YT_CHANNEL config | Some u' => Some u' end = None ->
  get_youtube X config root_dir url type size language video audio log_level
    st = (Raise TypeError, st).
Proof.
  intros Htype Hurl. unfold get_youtube. now rewrite Htype, Hurl.
Qed.

Lemma get_youtube_invalid_eq :
  mem type ["video"; "audio"] = false ->
  get_youtube X config root_dir url type size language video audio log_level
    st = (Ret (0, 0, None), st).
Proof. intros Htype. unfold get_youtube. now rewrite Htype. Qed.

Lemma get_youtube_calls (u : string) (url_ls : list string)
    (st1 : state World) :
  type = "video" \/ type = "audio" ->
  match url with None => YT_CHANNEL config | Some u' => Some u' end = Some u ->
  resolve_urls X u (get_or (MAX_DOWNLOADS config) 5%Z) st = (Ret url_ls, st1) ->
  exists r st',
    get_youtube X config root_dir url type size language video audio
      log_level st = (Ret r, st') /\
    download_calls (trace st')
    = (download_calls (trace st) ++ url_ls)%list /\
    run_of_calls X (path_join root_dir (get_or (DOWNLOADS config) "downloads"))
      type size language video audio log_level st1 url_ls r st'.
Proof.
  intros Htype Hurl Hres.
  destruct (get_youtube_run X config root_dir url type size language video
              audio log_level st u Htype Hurl)
    as (url_ls' & st1' & outcomes & st2 & Hres' & _ & Hext & Hd & Hrun).
  rewrite Hres in Hres'. injection Hres' as <- <-.
  eexists _, _. split; [exact Hrun|].
  assert (Ht : forall (w : World) path lines,
            trace {| world := w;
                     trace := (trace st2 ++ [WriteReport path lines])%list |}
            = (trace st1 ++ map DownloadVideo url_ls
               ++ [WriteReport path lines])%list).
  { intros w path lines. cbn [trace].
    rewrite (downloads_trace _ _ _ _ _ _ _ _ _ _ _ _ Hd).
    now rewrite <- app_assoc. }
  split.
  - rewrite Ht, !download_calls_app, download_calls_map.
    cbn [download_calls]. rewrite app_nil_r. f_equal.
    now apply extraction_only_calls.
  - eexists outcomes, st2, _, _.
    split; [exact Hd|]. split; [reflexivity|]. split; [reflexivity|].
    apply Ht.
Qed.

(** X5: a run of [get_youtube] with a valid type calls [download_video]
    at least once and at most [MAX_DOWNLOADS] times (five when the
    configuration has no such key), or once when that cap is below one;
    the calls are those on the resolved list, and the result and the
    final state are those of these calls. *)
Theorem get_youtube_download_cap (u : string) :
  type = "video" \/ type = "audio" ->
  match url with None => YT_CHANNEL config | Some u' => Some u' end = Some u ->
  exists r st' calls,
    get_youtube X config root_dir url type size language video audio
      log_level st = (Ret r, st') /\
    download_calls (trace st') = (download_calls (trace st) ++ calls)%list /\
    (1 <= Z.of_nat (length calls)
     <= Z.max 1 (get_or (MAX_DOWNLOADS config) 5%Z))%Z /\
    exists st1,
      resolve_urls X u (get_or (MAX_DOWNLOADS config) 5%Z) st
      = (Ret calls, st1) /\
      run_of_calls X
        (path_join root_dir (get_or (DOWNLOADS config) "downloads"))
        type size language video audio log_level st1 calls r st'.
Proof.
  intros Htype Hurl.
  destruct (resolve_urls_returns X u (get_or (MAX_DOWNLOADS config) 5%Z) st)
    as (url_ls & st1 & Hres & _ & _).
  destruct (get_youtube_calls u url_ls st1 Htype Hurl Hres)
    as (r & st' & Hrun & Hcalls & Hchain).
  exists r, st', url_ls.
  split; [exact Hrun|]. split; [exact Hcalls|].
  split; [now apply (resolve_urls_length _ _ _ _ _ Hres)|].
  now exists st1.
Qed.

(** X6: for a URL without ['list='], [get_youtube] asks the engine for no
    playlist and calls [download_video] once, on the URL as it was given;
    then it writes the report.  The result and the final state are those
    of that call. *)
Theorem get_youtube_single_video (u : string) :
  type = "video" \/ type = "audio" ->
  match url with None => YT_CHANNEL config | Some u' => Some u' end = Some u ->
  contains "list=" u = false ->
  exists r report_path report_lines st',
    get_youtube X config root_dir url type size language video audio
      log_level st = (Ret r, st') /\
    trace st'
    = (trace st ++ [DownloadVideo u; WriteReport report_path report_lines])%list
    /\
    run_of_calls X (path_join root_dir (get_or (DOWNLOADS config) "downloads"))
      type size language video audio log_level st [u] r st'.
Proof.
  intros Htype Hurl Hl.
  pose proof (resolve_urls_single u (get_or (MAX_DOWNLOADS config) 5%Z) st Hl)
    as Hres.
  destruct (get_youtube_calls u [u] st Htype Hurl Hres)
    as (r & st' & Hrun & _ & Hchain).
  pose proof Hchain as (outcomes & st2 & path & lines & _ & _ & _ & Ht).
  exists r, path, lines, st'. repeat split; assumption.
Qed.

(** X7: for a [watch?v=] URL with a playlist and a cap of zero or less,
    the extracted list is empty and [get_youtube] falls back to the video
    of the URL: it calls [download_video] once, on that video, and the
    result and the final state are those of that call. *)
Theorem get_youtube_fallback_video (u : string) :
  type = "video" \/ type = "audio" ->
  match url with None => YT_CHANNEL config | Some u' => Some u' end = Some u ->
  contains "watch?v=" u = true -> contains "list=" u = true ->
  (get_or (MAX_DOWNLOADS config) 5 <= 0)%Z ->
  exists video_id r st',
    text_after "watch?v=" u = Ret video_id /\
    get_youtube X config root_dir url type size language video audio
      log_level st = (Ret r, st') /\
    download_calls (trace st')
    = (download_calls (trace st) ++ [(watch_prefix ++ video_id)%string])%list
    /\
    exists st1,
      resolve_urls X u (get_or (MAX_DOWNLOADS config) 5%Z) st
      = (Ret [(watch_prefix ++ video_id)%string], st1) /\
      run_of_calls X
        (path_join root_dir (get_or (DOWNLOADS config) "downloads"))
        type size language video audio log_level st1
        [(watch_prefix ++ video_id)%string] r st'.
Proof.
  intros Htype Hurl Hw Hl Hmax.
  destruct (seed_of_watch u Hw Hl) as (video_id & Hid & Hseed).
  pose proof (resolve_urls_playlist u _ st _ []
                Hl (extract_urls_nonpositive X u _ st Hmax)) as Hres.
  cbn [is_empty] in Hres. rewrite Hseed in Hres.
  destruct (get_youtube_calls u _ _ Htype Hurl Hres)
    as (r & st' & Hrun & Hcalls & Hchain).
  exists video_id, r, st'. repeat split; try assumption.
  eexists. split; [exact Hres|exact Hchain].
Qed.

(** X8: for a playlist URL without ['watch?v='], when the extraction fails
    (the engine raises, returns no metadata, or returns metadata without
    entries), [get_youtube] calls [download_video] once, on the URL as it
    was given, and the result and the final state are those of that
    call. *)
Theorem get_youtube_last_resort (u : string) :
  type = "video" \/ type = "audio" ->
  match url with None => YT_CHANNEL config | Some u' => Some u' end = Some u ->
  contains "list=" u = true -> contains "watch?v=" u = false ->
  (forall info,
     fst (extract_info X (flat_opts (get_or (MAX_DOWNLOADS config) 5%Z))
            (playlist_url_of u) (world st)) = Ret (Some info) ->
     playlist_entries info = None) ->
  exists r st',
    get_youtube X config root_dir url type size language video audio
      log_level st = (Ret r, st') /\
    download_calls (trace st') = (download_calls (trace st) ++ [u])%list /\
    exists st1,
      resolve_urls X u (get_or (MAX_DOWNLOADS config) 5%Z) st
      = (Ret [u], st1) /\
      run_of_calls X
        (path_join root_dir (get_or (DOWNLOADS config) "downloads"))
        type size language video audio log_level st1 [u] r st'.
Proof.
  intros Htype Hurl Hl Hw Hfail.
  assert (Hseed : seed_of u = []) by (unfold seed_of; now rewrite Hw).
  destruct (extract_urls_from_playlist X u (get_or (MAX_DOWNLOADS config) 5%Z)
              st) as [r1 st1] eqn:He.
  pose proof (extract_urls_engine_fails_eq X u _ st Hfail) as Hr.
  rewrite He in Hr. cbn [fst] in Hr. subst r1.
  rewrite Hseed in He.
  assert (slice_to (@nil string) (get_or (MAX_DOWNLOADS config) 5%Z) = [])
    as Hnil by (unfold slice_to; destruct (_ <=? _)%Z; apply firstn_nil).
  rewrite Hnil in He.
  pose proof (resolve_urls_playlist u _ st st1 [] Hl He) as Hres.
  cbn [is_empty] in Hres. rewrite Hseed in Hres.
  destruct (get_youtube_calls u _ _ Htype Hurl Hres)
    as (r & st' & Hrun & Hcalls & Hchain).
  exists r, st'. repeat split; try assumption.
  eexists. split; [exact Hres|exact Hchain].
Qed.


(** X10: without a URL argument and without the key [YT_CHANNEL] in the
    configuration, a run with a valid type raises [TypeError] at the test
    for ['list='], before anything is extracted, downloaded or written. *)
Theorem get_youtube_no_url :
  type = "video" \/ type = "audio" ->
  url = None -> YT_CHANNEL config = None ->
  get_youtube X config root_dir url type size language video audio log_level
    st = (Raise TypeError, st).
Proof.
  intros Htype Hu Hc. apply get_youtube_no_url_eq.
  - destruct Htype as [H|H]; rewrite H; reflexivity.
  - rewrite Hu. exact Hc.
Qed.

End RunMore.

End ResolveMore.

(** ** When [download_video] reports a success *)

Section DownloadMore.

Context {World : Type} (X : Extern World).
Variables video_url output_dir type size language video_format audio_format
  log_level : string.
Variable st : state World.

(** X11: [download_video] returns [(True, title)] exactly when the engine
    returned metadata, its download and its file name came back without
    raising, and the output directory then lists at least one file with
    the base name of that file name; the title is the one of the metadata,
    or ['Unknown Title'] without one. *)
Theorem download_video_success (t : string) (st' : state World) :
  let o :=
    download_opts output_dir type size video_format audio_format log_level in
  download_video X video_url output_dir type size language video_format
    audio_format log_level st = (Ret (true, t), st')
  <->
  exists info w1 w2 filename w3 file files w4,
    extract_info X o video_url (world st) = (Ret (Some info), w1) /\
    download X o [video_url] w1 = (Ret tt, w2) /\
    prepare_filename X o info w2 = (Ret filename, w3) /\
    glob X output_dir (stem X filename ++ ".*") w3 = (Ret (file :: files), w4) /\
    t = get_or (title info) "Unknown Title" /\
    st' = {| world := w4;
             trace := (trace st ++ [DownloadVideo video_url])%list |}.
Proof.
  intros o.
  unfold download_video, try_except, mbind, emit, call, ret.
  cbn [world trace]. fold o.
  split.
  - destruct (extract_info X o video_url (world st)) as [[[info|]|e] w1]
      eqn:H1; cbn [world trace]; try discriminate.
    destruct (download X o [video_url] w1) as [[[]|e] w2] eqn:H2;
      cbn [world trace]; try discriminate.
    destruct (prepare_filename X o info w2) as [[filename|e] w3] eqn:H3;
      cbn [world trace]; try discriminate.
    destruct (glob X output_dir (stem X filename ++ ".*") w3)
      as [[[|file files]|e] w4] eqn:H4; cbn [world trace is_empty negb];
      try discriminate.
    + destruct (glob X output_dir "*" w4) as [[l|e] w5]; discriminate.
    + intros [= <- <-]. exists info, w1, w2, filename, w3, file, files, w4.
      repeat split; assumption.
  - intros (info & w1 & w2 & filename & w3 & file & files & w4
            & H1 & H2 & H3 & H4 & -> & ->).
    rewrite H1. cbn [world trace]. rewrite H2. cbn [world trace].
    rewrite H3. cbn [world trace]. rewrite H4. reflexivity.
Qed.

End DownloadMore.

(** ** Arguments without effect *)

Section AudioArguments.

Context {World : Type} (X : Extern World).

Lemma mbind_ext {A B : Type} (m : M World A) (k1 k2 : A -> M World B)
    (st : state World) :
  (forall a st', k1 a st' = k2 a st') -> mbind m k1 st = mbind m k2 st.
Proof.
  intros H. unfold mbind. destruct (m st) as [[a|e] st']; [apply H|reflexivity].
Qed.

Lemma download_loop_audio
    (output_dir size size' language language' video video' audio log_level
       : string) (url_ls : list string) :
  forall report_lines success_count fail_count st,
    download_loop X output_dir "audio" size language video audio log_level
      url_ls report_lines success_count fail_count st
    = download_loop X output_dir "audio" size' language' video' audio
        log_level url_ls report_lines success_count fail_count st.
Proof.
  induction url_ls as [|video_url rest IH]; intros lines sc fc st;
    [reflexivity|].
  cbn [download_loop].
  change (download_video X video_url output_dir "audio" size' language' video'
            audio log_level)
    with (download_video X video_url output_dir "audio" size language video
            audio log_level).
  apply mbind_ext. intros [[] t] st'; apply IH.
Qed.

(** X12: for the type ['audio'], the size, the language and the video
    format have no effect: [get_youtube] returns the same result and leaves
    the same world and trace whatever they are. *)
Theorem get_youtube_audio_arguments
    (config : Config) (root_dir : string) (url : option string)
    (size size' language language' video video' audio log_level : string)
    (st : state World) :
  get_youtube X config root_dir url "audio" size language video audio
    log_level st
  = get_youtube X config root_dir url "audio" size' language' video' audio
      log_level st.
Proof.
  unfold get_youtube. cbn [mem existsb String.eqb Ascii.eqb Bool.eqb negb orb].
  apply mbind_ext. intros u st1.
  apply mbind_ext. intros url_ls st2.
  destruct (is_empty url_ls); [reflexivity|].
  apply mbind_ext. intros timestamp st3.
  apply mbind_ext. intros generated st4.
  unfold mbind at 1 3.
  rewrite (download_loop_audio _ size size' language language' video video').
  reflexivity.
Qed.

End AudioArguments.

(** ** Canonical URLs *)

Lemma prefix_app_char (sep id : string) (c : ascii) (t : string) :
  prefix sep (id ++ String c t) = true ->
  prefix sep id = true \/ has_char c sep = true.
Proof.
  revert id; induction sep as [|a sep IH]; intros id H.
  - left. apply prefix_nil.
  - destruct id as [|b id]; cbn [String.append prefix] in H.
    + destruct (ascii_dec a c) as [->|]; [|discriminate].
      right. cbn [has_char]. now rewrite Ascii.eqb_refl.
    + destruct (ascii_dec a b) as [->|]; [|discriminate].
      destruct (IH id H) as [Hp|Hc].
      * left. cbn [prefix]. now destruct (ascii_dec b b).
      * right. cbn [has_char]. rewrite Hc. apply orb_true_r.
Qed.

Lemma prefix_has_chars (sep s : string) (d : ascii) :
  prefix sep s = true -> has_char d sep = true -> has_char d s = true.
Proof.
  intros Hp Hd. rewrite (prefix_split _ _ Hp), has_char_app, Hd. reflexivity.
Qed.

(** A separator with a character that [id] lacks cannot start inside
    [id], nor run over its end into a character that the separator
    lacks. *)
Lemma before_skip (sep id : string) (c d : ascii) (t : string) :
  has_char d sep = true -> has_char d id = false -> has_char c sep = false ->
  before sep (id ++ String c t) = id ++ before sep (String c t).
Proof.
  intros Hd Hid Hc. induction id as [|b id IH]; [reflexivity|].
  cbn [has_char] in Hid. apply orb_false_iff in Hid as [Hb Hid].
  change (String b id ++ String c t) with (String b (id ++ String c t)).
  cbn [before].
  destruct (prefix sep (String b (id ++ String c t))) eqn:E.
  - exfalso.
    destruct (prefix_app_char sep (String b id) c t E) as [Hp|Hc'];
      [|congruence].
    pose proof (prefix_has_chars _ _ d Hp Hd) as H.
    cbn [has_char] in H. rewrite Hb, Hid in H. discriminate.
  - cbn [String.append]. f_equal. now apply IH.
Qed.

Lemma before_char (c : ascii) (id t : string) :
  has_char c id = false -> before (String c "") (id ++ String c t) = id.
Proof.
  intros H. induction id as [|b id IH].
  - cbn [String.append before prefix].
    destruct (ascii_dec c c); [|congruence]. now rewrite prefix_nil.
  - cbn [has_char] in H. apply orb_false_iff in H as [Hb H].
    change (String b id ++ String c t) with (String b (id ++ String c t)).
    cbn [before prefix].
    destruct (ascii_dec c b) as [->|]; [now rewrite Ascii.eqb_refl in Hb|].
    f_equal. now apply IH.
Qed.

Lemma after_watch_prefix (s : string) :
  after "v=" (watch_prefix ++ s) = Some s /\
  after "watch?v=" (watch_prefix ++ s) = Some s.
Proof.
  unfold watch_prefix. cbn [String.append after prefix String.length drop].
  split; cbv -[prefix]; now rewrite prefix_nil.
Qed.

(** X13: on a canonical playlist-video URL, the watch prefix followed by
    an id without ['&'] and ['='] and by ['&list=...'], [get_video_url]
    returns the watch prefix followed by that id, and the list of
    [extract_urls_from_playlist] starts from the same URL. *)
Theorem canonical_video_url (video_id rest : string) :
  has_char "&" video_id = false -> has_char "=" video_id = false ->
  get_video_url (watch_prefix ++ video_id ++ "&list=" ++ rest)
  = Ret (watch_prefix ++ video_id) /\
  seed_of (watch_prefix ++ video_id ++ "&list=" ++ rest)
  = [watch_prefix ++ video_id].
Proof.
  intros Hamp Heq.
  set (u := watch_prefix ++ video_id ++ "&list=" ++ rest).
  destruct (after_watch_prefix (video_id ++ "&list=" ++ rest)) as [Hv Hw].
  fold u in Hv, Hw.
  assert (Hl : contains "&list=" u = true).
  { apply contains_iff. exists (watch_prefix ++ video_id), rest.
    subst u. now rewrite append_assoc. }
  assert (Hcut : forall sep,
            has_char "=" sep = true -> has_char "&" sep = false ->
            before "&" (before sep (video_id ++ "&list=" ++ rest))
            = video_id).
  { intros sep H1 H2.
    change ("&list=" ++ rest) with (String "&" ("list=" ++ rest)).
    rewrite (before_skip sep video_id "&" "=") by assumption.
    destruct (before_tail sep (String "&" ("list=" ++ rest)))
      as (tail & Ht & _).
    destruct (before sep (String "&" ("list=" ++ rest))) as [|b s] eqn:Eb.
    - cbn [before] in Eb.
      destruct (prefix sep (String "&" ("list=" ++ rest))) eqn:Ep;
        [|discriminate].
      pose proof (prefix_app_char sep "" "&" ("list=" ++ rest) Ep) as [Hp|Hc];
        [|congruence].
      destruct sep; [discriminate|discriminate].
    - cbn [String.append] in Ht. injection Ht as <- _.
      now apply before_char. }
  split.
  - rewrite (get_video_url_cut u _ Hl Hv). f_equal. f_equal.
    now apply Hcut.
  - unfold seed_of.
    assert (contains "watch?v=" u = true) as ->
      by (apply contains_after; [discriminate|eauto]).
    assert (contains "list=" u = true) as ->
      by (now apply contains_tail in Hl).
    cbn [andb].
    rewrite (text_after_cut "watch?v=" u _ ltac:(discriminate) Hw).
    f_equal. f_equal. now apply Hcut.
Qed.

(** ** [setup_logging] *)

Section LoggingFacts.

Import Logging.

Lemma handler_eqb_refl (h : handler) : handler_eqb h h = true.
Proof. destruct h; cbn; now rewrite ?String.eqb_refl. Qed.

Lemma remove_all_handlers (hs : list handler) (L : logging) :
  handlers (fold_left (fun L h => removeHandler h L) hs L)
  = filter (fun h' => negb (existsb (fun h => handler_eqb h h') hs))
      (handlers L) /\
  level (fold_left (fun L h => removeHandler h L) hs L) = level L /\
  disabled (fold_left (fun L h => removeHandler h L) hs L) = disabled L.
Proof.
  revert L; induction hs as [|h hs IH]; intros L; cbn [fold_left existsb].
  - repeat split.
    induction (handlers L) as [|a l IHl]; [reflexivity|].
    cbn [filter negb]. now f_equal.
  - destruct (IH (removeHandler h L)) as (H1 & H2 & H3).
    rewrite H1, H2, H3. cbn [removeHandler handlers level disabled].
    repeat split.
    induction (handlers L) as [|a l IHl]; [reflexivity|].
    cbn [filter]. destruct (handler_eqb h a); cbn [negb orb filter].
    + exact IHl.
    + destruct (existsb _ hs); cbn [negb]; now rewrite IHl.
Qed.

(** The loop of lines 53-54 leaves the root logger without handlers. *)
Lemma reset_handlers (L : logging) :
  handlers (fold_left (fun L h => removeHandler h L) (handlers L) L) = [].
Proof.
  rewrite (proj1 (remove_all_handlers (handlers L) L)).
  assert (H : forall l hs, incl l hs ->
            filter (fun h' => negb (existsb (fun h => handler_eqb h h') hs)) l
            = []); [|apply H, incl_refl].
  induction l as [|a l IH]; intros hs Hincl; [reflexivity|].
  cbn [filter].
  assert (existsb (fun h => handler_eqb h a) hs = true) as ->.
  { apply existsb_exists. exists a. split; [|apply handler_eqb_refl].
    apply Hincl. now left. }
  apply IH. intros x Hx. apply Hincl. now right.
Qed.

Variables (log_level : string) (output_dir : option string) (now : string).
Variable L : logging.

(** X14: after [setup_logging] the root logger has the console handler
    and, when an output directory is given, the handler of the log file
    [download_log_<now>.log] in it, and no other, whatever handlers it
    had before: calling [setup_logging] again does not pile handlers
    up. *)
Theorem setup_logging_handlers :
  handlers (setup_logging log_level output_dir now L)
  = StreamHandler log_format ::
    match output_dir with
    | Some d =>
        [FileHandler (path_join d ("download_log_" ++ now ++ ".log"))
           log_format]
    | None => []
    end.
Proof.
  unfold setup_logging. unfold basicConfig. rewrite reset_handlers.
  destruct output_dir; destruct (log_level =? "NONE"); reflexivity.
Qed.

(** X15: a level name other than the six of the table, for instance a
    lower-case one, sets the level of the root logger to [INFO]. *)
Theorem setup_logging_unknown_level :
  ~ In log_level ["DEBUG"; "INFO"; "WARNING"; "ERROR"; "CRITICAL"; "NONE"] ->
  level (setup_logging log_level output_dir now L) = INFO.
Proof.
  intros H. unfold setup_logging, basicConfig. rewrite reset_handlers.
  assert (Hne : forall k,
            In k ["DEBUG"; "INFO"; "WARNING"; "ERROR"; "CRITICAL"; "NONE"] ->
            (k =? log_level) = false).
  { intros k Hk. apply String.eqb_neq. intros ->. contradiction. }
  assert (dict_get log_levels log_level INFO = INFO) as Hget.
  { unfold log_levels. cbn [dict_get].
    rewrite !Hne by (cbn [In]; tauto). reflexivity. }
  rewrite Hget.
  assert ((log_level =? "NONE") = false) as ->.
  { apply String.eqb_neq. intros ->. apply H. cbn [In]. tauto. }
  now destruct output_dir.
Qed.

(** X16: after [setup_logging] with the level ['NONE'] the root logger
    lets no record of a level up to [CRITICAL] through, and another call
    of [setup_logging], with any level, does not change that. *)
Theorem setup_logging_none_is_final
    (lvl : nat) (log_level' : string) (output_dir' : option string)
    (now' : string) :
  lvl <= CRITICAL ->
  isEnabledFor lvl (setup_logging "NONE" output_dir now L) = false /\
  isEnabledFor lvl
    (setup_logging log_level' output_dir' now'
       (setup_logging "NONE" output_dir now L)) = false.
Proof.
  intros Hlvl.
  assert (Hd : forall ll od nw L0,
            disabled L0 = CRITICAL ->
            disabled (setup_logging ll od nw L0) = CRITICAL).
  { intros ll od nw L0 H0. unfold setup_logging, basicConfig.
    rewrite reset_handlers.
    rewrite (proj2 (proj2 (remove_all_handlers (handlers L0) L0))).
    destruct od; destruct (ll =? "NONE"); cbn; congruence. }
  assert (H1 : disabled (setup_logging "NONE" output_dir now L) = CRITICAL).
  { unfold setup_logging. cbn [String.eqb Ascii.eqb Bool.eqb].
    reflexivity. }
  unfold isEnabledFor. rewrite (Hd _ _ _ _ H1), H1.
  assert ((CRITICAL <? lvl)%nat = false) as ->
    by (apply Nat.ltb_ge; exact Hlvl).
  split; reflexivity.
Qed.

End LoggingFacts.

(** ** [load_config] *)

(** X17: for a script at [root/dir/file], [load_config] reads
    [root/config.yaml] and no other path, and returns [root] as the
    project root; it returns what the file parsed to, and the default
    configuration, with the same root, when reading or parsing raises. *)
Theorem load_config_root {World : Type} (F : Files World) (w : World)
    (root : Paths.path) (dir file : string) :
  script_file F = Paths.child (Paths.child root dir) file ->
  snd (fst (load_config F w)) = root /\
  (forall c w',
     safe_load_file F (Paths.child root "config.yaml") w = (Ret c, w') ->
     load_config F w = ((c, root), w')) /\
  (forall e w',
     safe_load_file F (Paths.child root "config.yaml") w = (Raise e, w') ->
     load_config F w = ((YMapping default_config, root), w')).
Proof.
  intros Hs. unfold load_config. rewrite Hs.
  unfold Paths.parent, Paths.child. rewrite !removelast_last.
  repeat split.
  - now destruct (safe_load_file F _ w) as [[c|e] w'].
  - intros c w' ->. reflexivity.
  - intros e w' ->. reflexivity.
Qed.

(** ** [main] *)

Section MainFacts.

Context {World : Type} (X : Extern World).
Variables (config : Config) (root_dir : string).
Variables (argv : list string) (st : state World).

Lemma get_youtube_args_cap (args : list string) :
  exists r st' calls,
    get_youtube_args X config root_dir args st = (r, st') /\
    download_calls (trace st') = (download_calls (trace st) ++ calls)%list /\
    (Z.of_nat (length calls) <= Z.max 1 (get_or (MAX_DOWNLOADS config) 5%Z))%Z.
Proof.
  assert (Hnone : forall r,
            exists (r' : exc (nat * nat * option string)) st' calls,
              (r, st) = (r', st') /\
              download_calls (trace st')
              = (download_calls (trace st) ++ calls)%list /\
              (Z.of_nat (length calls)
               <= Z.max 1 (get_or (MAX_DOWNLOADS config) 5%Z))%Z).
  { intros r. exists r, st, []. rewrite app_nil_r. repeat split. simpl. lia. }
  unfold get_youtube_args.
  destruct (7 <? length args)%nat; [apply Hnone|].
  destruct (mem (nth 1 args "video") ["video"; "audio"]) eqn:Htype.
  - destruct (match nth_error args 0 with
              | None => YT_CHANNEL config
              | Some u' => Some u'
              end) as [u|] eqn:Hurl.
    + assert (Hv : nth 1 args "video" = "video" \/ nth 1 args "video" = "audio").
      { apply mem_In in Htype. cbn [In] in Htype.
        destruct Htype as [<-|[<-|[]]]; auto. }
      destruct (resolve_urls_returns X u (get_or (MAX_DOWNLOADS config) 5%Z) st)
        as (url_ls & st1 & Hres & _ & _).
      destruct (get_youtube_calls X config root_dir (nth_error args 0)
                  (nth 1 args "video") (nth 2 args "760") (nth 3 args "en")
                  (nth 4 args "mp4") (nth 5 args "mp3") (nth 6 args "INFO")
                  st u url_ls st1 Hv Hurl Hres)
        as (r & st' & Hrun & Hcalls & _).
      exists (Ret r), st', url_ls. repeat split; try assumption.
      now apply (resolve_urls_length X _ _ _ _ _ Hres).
    + rewrite get_youtube_no_url_eq by assumption. apply Hnone.
  - rewrite get_youtube_invalid_eq by assumption. apply Hnone.
Qed.

(** X18: with more than seven arguments after the program name, [main]
    raises [TypeError] at the call of [get_youtube]: nothing is
    extracted, downloaded or written. *)
Theorem main_too_many_arguments :
  8 < length argv ->
  main X config root_dir argv st = (Raise TypeError, st).
Proof.
  intros H. unfold main, get_youtube_args, mbind.
  assert ((length argv <? 2)%nat = false) as -> by (apply Nat.ltb_ge; lia).
  assert ((7 <? length (skipn 1 argv))%nat = true) as ->.
  { apply Nat.ltb_lt. rewrite length_skipn. lia. }
  reflexivity.
Qed.

(** X19: whatever its arguments, and whether it returns or raises, [main]
    calls [download_video] at most [MAX_DOWNLOADS] times (five when the
    configuration has no such key), or once when that cap is below one. *)
Theorem main_download_cap :
  exists r st' calls,
    main X config root_dir argv st = (r, st') /\
    download_calls (trace st') = (download_calls (trace st) ++ calls)%list /\
    (Z.of_nat (length calls) <= Z.max 1 (get_or (MAX_DOWNLOADS config) 5%Z))%Z.
Proof.
  unfold main, mbind, ret.
  destruct (get_youtube_args_cap
              (if (length argv <? 2)%nat then [] else skipn 1 argv))
    as (r & st' & calls & Hrun & Hcalls & Hlen).
  destruct (length argv <? 2)%nat; rewrite Hrun;
    destruct r as [a|e]; now eexists _, st', calls.
Qed.

End MainFacts.

(** ** The further properties on the sample worlds *)

Module SampleExtras.

Import Sample SampleMore.

Example path_join_relative :
  path_join "/proj" "downloads" = "/proj/downloads".
Proof. reflexivity. Qed.

Example path_join_absolute : path_join "/proj" "/data/music" = "/data/music".
Proof. reflexivity. Qed.

Example path_join_root : path_join "/" "downloads" = "/downloads".
Proof. reflexivity. Qed.

Lemma extract_urls_first_distinct_witness :
  fst (extract_urls_from_playlist extern
         "https://www.youtube.com/watch?v=bbb&list=PL1&index=50" 2 st0)
  = Ret ["https://www.youtube.com/watch?v=bbb";
         "https://www.youtube.com/watch?v=aaa"].
Proof.
  apply (extract_urls_first_distinct extern
           "https://www.youtube.com/watch?v=bbb&list=PL1&index=50" 2 st0
           {| title := None; playlist_entries := Some sample_entries |}
           sample_entries 1);
    [lia|reflexivity|reflexivity].
Defined.

Lemma extract_urls_cap_one_witness :
  extract_urls_from_playlist offline
    "https://www.youtube.com/watch?v=bbb&list=PL1&index=50" 1 st0
  = (Ret ["https://www.youtube.com/watch?v=bbb"], st0).
Proof.
  destruct (extract_urls_cap_one offline
              "https://www.youtube.com/watch?v=bbb&list=PL1&index=50" st0
              eq_refl eq_refl) as (video_id & Hid & H).
  vm_compute in Hid. injection Hid as <-. exact H.
Defined.

Lemma extract_urls_engine_fails_witness :
  fst (extract_urls_from_playlist offline
         "https://www.youtube.com/watch?v=bbb&list=PL1&index=50" 3 st0)
  = Ret ["https://www.youtube.com/watch?v=bbb"].
Proof.
  apply (extract_urls_engine_fails offline
           "https://www.youtube.com/watch?v=bbb&list=PL1&index=50" 3 st0).
  intros info H. discriminate H.
Defined.

Lemma extract_urls_cap_nonpositive_witness :
  fst (extract_urls_from_playlist extern
         "https://www.youtube.com/watch?v=bbb&list=PL1&index=50" (-2) st0)
  = Ret [].
Proof.
  apply (extract_urls_cap_nonpositive extern
           "https://www.youtube.com/watch?v=bbb&list=PL1&index=50" (-2) st0).
  lia.
Defined.

Lemma get_youtube_download_cap_witness :
  exists r st' calls,
    get_youtube extern config "/proj" None "video" "760" "en" "mp4" "mp3"
      "INFO" st0 = (Ret r, st') /\
    download_calls (trace st') = calls /\
    (1 <= Z.of_nat (length calls) <= 5)%Z.
Proof.
  destruct (get_youtube_download_cap extern config "/proj" None "video" "760"
              "en" "mp4" "mp3" "INFO" st0
              "https://www.youtube.com/watch?v=bbb&list=PL1&index=50")
    as (r & st' & calls & Hrun & Hcalls & Hlen & _);
    [left; reflexivity|reflexivity|].
  exists r, st', calls.
  split; [exact Hrun|split; [exact Hcalls|exact Hlen]].
Defined.

Lemma get_youtube_single_video_witness :
  exists r report_path report_lines st',
    get_youtube extern config "/proj" (Some "https://youtu.be/xyz") "audio"
      "760" "en" "mp4" "mp3" "INFO" st0 = (Ret r, st') /\
    trace st'
    = [DownloadVideo "https://youtu.be/xyz";
       WriteReport report_path report_lines].
Proof.
  destruct (get_youtube_single_video extern config "/proj"
              (Some "https://youtu.be/xyz") "audio" "760" "en" "mp4" "mp3"
              "INFO" st0 "https://youtu.be/xyz")
    as (r & path & lines & st' & Hrun & Ht & _);
    [right; reflexivity|reflexivity|reflexivity|].
  exists r, path, lines, st'. split; assumption.
Defined.

Lemma get_youtube_fallback_video_witness :
  exists r st',
    get_youtube extern config_zero "/proj"
      (Some "https://www.youtube.com/watch?v=bbb&list=PL1") "video" "760"
      "en" "mp4" "mp3" "INFO" st0 = (Ret r, st') /\
    download_calls (trace st') = ["https://www.youtube.com/watch?v=bbb"].
Proof.
  destruct (get_youtube_fallback_video extern config_zero "/proj"
              (Some "https://www.youtube.com/watch?v=bbb&list=PL1") "video"
              "760" "en" "mp4" "mp3" "INFO" st0
              "https://www.youtube.com/watch?v=bbb&list=PL1")
    as (video_id & r & st' & Hid & Hrun & Hcalls & _);
    [left; reflexivity|reflexivity|reflexivity|reflexivity|simpl; lia|].
  vm_compute in Hid. injection Hid as <-.
  exists r, st'. split; assumption.
Defined.

Lemma get_youtube_last_resort_witness :
  exists r st',
    get_youtube offline config_empty "/proj"
      (Some "https://www.youtube.com/playlist?list=PL1") "video" "760" "en"
      "mp4" "mp3" "INFO" st0 = (Ret r, st') /\
    download_calls (trace st') = ["https://www.youtube.com/playlist?list=PL1"].
Proof.
  destruct (get_youtube_last_resort offline config_empty "/proj"
              (Some "https://www.youtube.com/playlist?list=PL1") "video" "760"
              "en" "mp4" "mp3" "INFO" st0
              "https://www.youtube.com/playlist?list=PL1")
    as (r & st' & Hrun & Hcalls & _);
    [left; reflexivity|reflexivity|reflexivity|reflexivity| |].
  - intros info H. discriminate H.
  - exists r, st'. split; assumption.
Defined.


Lemma get_youtube_no_url_witness :
  get_youtube extern config_empty "/proj" None "audio" "760" "en" "mp4" "mp3"
    "INFO" st0 = (Raise TypeError, st0).
Proof.
  apply (get_youtube_no_url extern config_empty "/proj" None "audio" "760"
           "en" "mp4" "mp3" "INFO" st0);
    [right; reflexivity|reflexivity|reflexivity].
Defined.

Lemma download_video_success_witness :
  fst (download_video extern "https://www.youtube.com/watch?v=aaa"
         "/proj/downloads" "video" "760" "en" "mp4" "mp3" "INFO" st0)
  = Ret (true, "A title").
Proof.
  rewrite (proj2 (download_video_success extern
                    "https://www.youtube.com/watch?v=aaa" "/proj/downloads"
                    "video" "760" "en" "mp4" "mp3" "INFO" st0 "A title"
                    {| world := 4;
                       trace := [DownloadVideo
                                   "https://www.youtube.com/watch?v=aaa"] |}));
    [reflexivity|].
  exists {| title := Some "A title"; playlist_entries := None |}, 1, 2,
    "downloads/A title.mp4", 3, "downloads/A title.mp4", [], 4.
  repeat split; reflexivity.
Defined.

Lemma canonical_video_url_witness :
  get_video_url
    "https://www.youtube.com/watch?v=EptPiz-ZYvM&list=PLJZH8&index=50"
  = Ret "https://www.youtube.com/watch?v=EptPiz-ZYvM" /\
  seed_of "https://www.youtube.com/watch?v=EptPiz-ZYvM&list=PLJZH8&index=50"
  = ["https://www.youtube.com/watch?v=EptPiz-ZYvM"].
Proof.
  apply (canonical_video_url "EptPiz-ZYvM" "PLJZH8&index=50"); reflexivity.
Defined.

Lemma setup_logging_unknown_level_witness :
  Logging.level
    (Logging.setup_logging "debug" (Some "downloads") "20250101_000000"
       used_logging) = Logging.INFO.
Proof.
  apply (setup_logging_unknown_level "debug" (Some "downloads")
           "20250101_000000" used_logging).
  cbn [In]. intros [H|[H|[H|[H|[H|[H|[]]]]]]]; discriminate H.
Defined.

Lemma setup_logging_none_is_final_witness :
  Logging.isEnabledFor Logging.CRITICAL
    (Logging.setup_logging "NONE" None "20250101_000000" used_logging)
  = false /\
  Logging.isEnabledFor Logging.CRITICAL
    (Logging.setup_logging "DEBUG" None "20250102_000000"
       (Logging.setup_logging "NONE" None "20250101_000000" used_logging))
  = false.
Proof.
  apply (setup_logging_none_is_final None "20250101_000000" used_logging
           Logging.CRITICAL "DEBUG" None "20250102_000000").
  apply le_n.
Defined.

Lemma load_config_root_witness :
  load_config files 0
  = ((YMapping default_config, ["home"; "dj"; "project"]), 1).
Proof.
  apply (proj2 (proj2 (load_config_root files 0 ["home"; "dj"; "project"]
                         "src" "step1_get_youtube.py" eq_refl))
           (EngineError "No such file") 1).
  reflexivity.
Defined.

Lemma main_too_many_arguments_witness :
  main extern config "/proj"
    ["step1_get_youtube.py"; "https://youtu.be/xyz"; "video"; "760"; "en";
     "mp4"; "mp3"; "INFO"; "extra"] st0
  = (Raise TypeError, st0).
Proof.
  apply (main_too_many_arguments extern config "/proj"
           ["step1_get_youtube.py"; "https://youtu.be/xyz"; "video"; "760";
            "en"; "mp4"; "mp3"; "INFO"; "extra"] st0).
  simpl. lia.
Defined.

End SampleExtras.
